(** * websocket-cache: the room state relay of [server.js]

    A shallow embedding of the room registry, of the [message] handler
    ([/room] joins and [/state] updates), of the [db.json] snapshot
    ([saveStateToDisk] and the start-up load), and the properties of the
    specification that concern them.

    Conventions of the embedding:
    - a frame is the text [data.toString()], a [string];
    - the object [rooms] is a finite map from its own property names to
      room records; the [in] operator also sees the properties that a
      plain object inherits from [Object.prototype];
    - a WebSocket object is a handle of a type [conn] with decidable
      identity ([client !== ws]); whether [client.readyState] equals
      [WebSocket.OPEN] is read through a predicate [is_open] ([server.js]
      does not import [WebSocket]: the constant is that of the global
      [WebSocket] of the runtime);
    - the built-ins [JSON.parse] and [JSON.stringify] are parameters:
      [JSON_parse] returns [None] where [JSON.parse] throws;
    - [x.send(text)] is recorded as the pair [(x, text)] in the list of
      frames sent, oldest first;
    - [on_message] is the handler where [Object.prototype] has its built-in
      properties. The handler itself can add one: an update with the room
      id [__proto__], when the registry holds no such room, assigns
      [Object.prototype.state]; the result of that invocation records the
      assignment ([res_stray]). [on_message_under] is the handler with
      [Object.prototype.state] as a part of the state, and [serve] delivers
      frames with it; [run] delivers frames up to the first assignment. *)

From Stdlib Require Import Ascii.
From stdpp Require Import base strings gmap list pretty.

#[local] Set Warnings "-register-all".

(** ** Strings: [split(' ')] and [join(' ')] *)

(** [split s] is [s.split(' ')]: the pieces of [s] between single spaces;
    it never returns the empty array. *)
Fixpoint split (s : string) : list string :=
  match s with
  | EmptyString => [""]
  | String c s' =>
      if Ascii.eqb c " "%char then "" :: split s'
      else match split s' with
           | t :: ts => String c t :: ts
           | [] => [String c ""]
           end
  end.

(** [join l] is [l.join(' ')]. *)
Definition join (l : list string) : string := String.concat " " l.

(** [no_space s]: the text [s] holds no space character. *)
Fixpoint no_space (s : string) : bool :=
  match s with
  | EmptyString => true
  | String c s' => negb (Ascii.eqb c " "%char) && no_space s'
  end.

(** ** JSON values *)

(** What [JSON.parse] returns. The server never computes with numbers, so
    their carrier is a parameter. An object is a finite map: the order of
    its keys only shows in the order of the serialized text. *)
Inductive json (number : Type) : Type :=
  | JNull
  | JBool (b : bool)
  | JNum (n : number)
  | JStr (s : string)
  | JArr (l : list (json number))
  | JObj (m : gmap string (json number)).

Arguments JNull {number}.
Arguments JBool {number} b.
Arguments JNum {number} n.
Arguments JStr {number} s.
Arguments JArr {number} l.
Arguments JObj {number} m.

(** ** Plain objects and the [in] operator *)

(** The own property names of [Object.prototype]: every plain object such
    as [rooms = {}] inherits them, and [key in rooms] is true for each. *)
Definition Object_prototype_names : list string :=
  [ "constructor"; "__defineGetter__"; "__defineSetter__"; "hasOwnProperty";
    "__lookupGetter__"; "__lookupSetter__"; "isPrototypeOf";
    "propertyIsEnumerable"; "toString"; "valueOf"; "__proto__";
    "toLocaleString" ].

(** [key in o] for a plain object [o] with own properties [o]. *)
Definition js_in {V} (key : string) (o : gmap string V) : bool :=
  bool_decide (is_Some (o !! key)) || bool_decide (key ∈ Object_prototype_names).

(** [Object.entries(o)] of a plain object. *)
Definition Object_entries {V} (o : gmap string V) : list (string * V) :=
  map_to_list o.

(** [Object.fromEntries(l)]: properties are defined from left to right, a
    later entry replaces an earlier one with the same key. *)
Definition Object_fromEntries {V} (l : list (string * V)) : gmap string V :=
  foldl (λ o kv, <[kv.1 := kv.2]> o) ∅ l.

(** ** The registry *)

Section Server.
Context {number : Type}.
Context {conn : Type} `{EqDecision conn}.

(** [JSON.parse] ([None]: it throws) and [JSON.stringify] on a value
    [JSON.parse] returned. *)
Variable JSON_parse : string → option (json number).
Variable JSON_stringify : json number → string.
(** [argv.token] *)
Variable token : string.
(** [client.readyState === WebSocket.OPEN] *)
Variable is_open : conn → bool.

(** A room [{ state, clients }]; [state] is [None] for [undefined]. *)
Record room := Room { state : option (json number); clients : list conn }.

(** How an invocation of a handler ends. *)
Inductive completion :=
  | Normal          (* it returns *)
  | CaughtError     (* an exception reached [catch] and was logged *)
  | UncaughtError.  (* an exception left the handler *)

(** The effects of one invocation of the message handler. [res_stray]
    records an assignment [rooms[roomId].state = v] that landed on an
    object inherited under the name [roomId], not on a room. *)
Record result := Result {
  res_rooms : gmap string room;
  res_sent : list (conn * string);
  res_end : completion;
  res_stray : option (string * json number)
}.

(** [JSON.stringify(st)] for a room state: [undefined] gives [undefined]. *)
Definition JSON_stringify_state (st : option (json number)) : option string :=
  JSON_stringify <$> st.

(** ['/state ' + x] where [x] is a string or [undefined]. *)
Definition state_frame (x : option string) : string :=
  "/state " +:+ default "undefined" x.

(** The [forEach] of the update branch. *)
Definition fan_out (ws : conn) (st : json number) (cl : list conn)
    : list (conn * string) :=
  foldl (λ out client,
           if bool_decide (client ≠ ws) && is_open client
           then out ++ [(client, state_frame (JSON_stringify_state (Some st)))]
           else out)
        [] cl.

(** [ws.on('message', (data) => ...)]: the handler of connection [ws] on
    the frame [data], with the registry [rooms]. *)
Definition on_message (rooms : gmap string room) (ws : conn) (data : string)
    : result :=
  let lineSplit := split data in
  if bool_decide (lineSplit !! 0 = Some "/room")
     && bool_decide (length lineSplit = 3) then
    let authToken := lineSplit !! 1 in
    if bool_decide (authToken ≠ Some token) then Result rooms [] Normal None
    else
      let roomId := default "" (lineSplit !! 2) in
      if js_in roomId rooms then
        match rooms !! roomId with
        | Some r =>
            Result (<[roomId := Room (state r) (clients r ++ [ws])]> rooms)
                   [(ws, state_frame (JSON_stringify_state (state r)))]
                   Normal None
        | None =>
            (* [rooms[roomId]] is inherited and has no [clients]:
               [undefined.push] throws a TypeError *)
            Result rooms [] UncaughtError None
        end
      else
        Result (<[roomId := Room None [ws]]> rooms) [] Normal None
  else if bool_decide (lineSplit !! 0 = Some "/state")
          && bool_decide (2 < length lineSplit) then
    let roomId := default "" (lineSplit !! 1) in
    if negb (js_in roomId rooms) then Result rooms [] Normal None
    else
      match JSON_parse (join (drop 2 lineSplit)) with
      | None => Result rooms [] CaughtError None
      | Some st =>
          match rooms !! roomId with
          | Some r =>
              Result (<[roomId := Room (Some st) (clients r)]> rooms)
                     (fan_out ws st (clients r))
                     Normal None
          | None =>
              (* the assignment lands on the inherited object, then
                 [undefined.forEach] throws a TypeError inside [try] *)
              Result rooms [] CaughtError (Some (roomId, st))
          end
      end
  else Result rooms [] Normal None.

(** ** The snapshot [db.json] *)

(** [JSON.stringify(o)] of a plain object whose property values are
    JSON values or [undefined]: a property whose value is [undefined] is
    left out of the text. *)
Definition JSON_stringify_object (o : gmap string (option (json number)))
    : string :=
  JSON_stringify (JObj (omap id o)).

(** The object that [saveStateToDisk] builds: room id to [state]. *)
Definition saved_states (rooms : gmap string room)
    : gmap string (option (json number)) :=
  Object_fromEntries (map (λ kv, (kv.1, state kv.2)) (Object_entries rooms)).

(** The text [saveStateToDisk] hands to [fs.writeFile]. *)
Definition saveStateToDisk (rooms : gmap string room) : string :=
  JSON_stringify_object (saved_states rooms).

(** [Object.entries(v)] of a JSON value; [None]: it throws (on [null]). *)
Definition Object_entries_json (v : json number)
    : option (list (string * json number)) :=
  match v with
  | JNull => None
  | JBool _ | JNum _ => Some []
  | JStr s =>
      Some (imap (λ i c, (pretty i, JStr (String c ""))) (String.list_ascii_of_string s))
  | JArr l => Some (imap (λ i x, (pretty i, x)) l)
  | JObj m => Some (Object_entries m)
  end.

(** The registry after the start-up [try] block; [file] is the content of
    [db.json], [None] when [fs.readFileSync] throws. A failure anywhere
    in the block leaves [rooms = {}]. *)
Definition load_db (file : option string) : gmap string room :=
  match file with
  | None => ∅
  | Some text =>
      match JSON_parse text with
      | None => ∅
      | Some v =>
          match Object_entries_json v with
          | None => ∅
          | Some entries =>
              Object_fromEntries
                (map (λ kv, (kv.1, Room (Some kv.2) [])) entries)
          end
      end
  end.

End Server.

Arguments room : clear implicits.
Arguments result : clear implicits.

(** ** The process: start-up and the delivery of frames *)

(** The check of the [token] argument, [argv.token.includes(' ')]: it
    returns [true], or throws ([None]) when the token holds a space. *)
Definition check_token (token : string) : option bool :=
  if negb (no_space token) then None else Some true.

Section Process.
Context {number : Type}.
Context {conn : Type} `{EqDecision conn}.
Variable JSON_parse : string → option (json number).
Variable JSON_stringify : json number → string.
Variable token : string.
Variable is_open : conn → bool.

(** The start of the process: the [try] block that loads [db.json], then
    the first call of [saveStateToDisk]. It gives the registry and the text
    handed to [fs.writeFile]. *)
Definition startup (file : option string)
    : gmap string (room number conn) * string :=
  let rooms := load_db JSON_parse file in
  (rooms, saveStateToDisk JSON_stringify rooms).

(** Where the process stands: it runs; it has exited on an exception that
    left a handler; or an update has assigned [Object.prototype.state], from
    where on [on_message] is not the handler any more and [run] stops
    following the process ([serve] below follows it on). *)
Inductive status :=
  | Up
  | Exited
  | Tainted.

(** The registry, the frames sent so far and the status. *)
Record process := Process {
  proc_rooms : gmap string (room number conn);
  proc_sent : list (conn * string);
  proc_status : status
}.

(** The delivery of one [message] event, [e.1] the connection and [e.2]
    the text: the handler of that connection runs to its end. A process
    that has exited handles nothing; after an assignment of
    [Object.prototype.state] the process goes on, but [deliver] records
    nothing more of it. *)
Definition deliver (p : process) (e : conn * string) : process :=
  match proc_status p with
  | Up =>
      let res :=
        on_message JSON_parse JSON_stringify token is_open (proc_rooms p) e.1 e.2 in
      Process (res_rooms res) (proc_sent p ++ res_sent res)
              (match res_end res, res_stray res with
               | UncaughtError, _ => Exited
               | _, Some (k, _) => if bool_decide (k = "__proto__") then Tainted else Up
               | _, None => Up
               end)
  | _ => p
  end.

(** The [message] events [events], delivered in order to a process that
    starts with the registry [rooms], up to the first assignment of
    [Object.prototype.state]. *)
Definition run (rooms : gmap string (room number conn))
    (events : list (conn * string)) : process :=
  foldl deliver (Process rooms [] Up) events.

End Process.

Arguments process : clear implicits.

(** ** The process after an assignment of [Object.prototype.state]

    An update with the room id [__proto__], on a registry that holds no
    such room, assigns the decoded value to [Object.prototype.state]. From
    then on ['state' in rooms] is true, and where the registry holds no
    room [state], [rooms['state']] is that value: a join or an update of
    the room id [state] works on it. Nothing else changes: a room of the
    registry has [state] and [clients] as own properties, and the names
    that [Object.prototype] has of itself still give objects without
    [clients]. *)

Section Prototype.
Context {number : Type}.
Context {conn : Type} `{EqDecision conn}.
Variable JSON_parse : string → option (json number).
Variable JSON_stringify : json number → string.
Variable token : string.
Variable is_open : conn → bool.
(** [n === WebSocket.OPEN] for a decoded number [n]. *)
Variable is_OPEN : number → bool.
(** [JSON.stringify(v)] for a decoded object [v] whose [clients] array
    holds, after its decoded elements, the WebSocket objects [l]; [None]
    where it throws. *)
Variable JSON_stringify_live : json number → list conn → option string.

(** The value of [Object.prototype.state]: the value that the update
    decoded, with the later assignments to its [state], and the WebSocket
    objects that joins have pushed on its [clients] array, oldest first. *)
Record phantom := Phantom {
  ph_value : json number;
  ph_pushed : list conn
}.

(** The [/room] branch with the shared token and the room id [state], where
    [rooms['state']] is the inherited value [ph]:
    [rooms[roomId].clients.push(ws)] throws unless the value is an object
    whose [clients] is an array; then [rooms[roomId].state] is the [state]
    of the value or, when it has none of its own, the inherited one, which
    is the value itself. Neither statement is inside a [try]. *)
Definition join_inherited_state (ph : phantom)
    (rooms : gmap string (room number conn)) (ws : conn)
    : result number conn * option phantom :=
  match ph_value ph with
  | JObj m =>
      match m !! "clients" with
      | Some (JArr l) =>
          let pushed := ph_pushed ph ++ [ws] in
          match match m !! "state" with
                | Some st => Some (JSON_stringify st)
                | None => JSON_stringify_live (JObj m) pushed
                end with
          | Some text =>
              (Result rooms [(ws, "/state " +:+ text)] Normal None,
               Some (Phantom (JObj m) pushed))
          | None =>
              (Result rooms [] UncaughtError None,
               Some (Phantom (JObj m) pushed))
          end
      | _ => (Result rooms [] UncaughtError None, Some ph)
      end
  | _ => (Result rooms [] UncaughtError None, Some ph)
  end.

(** Whether the callback of [forEach] throws on the decoded element [x] of
    a [clients] array: [null.readyState] throws, and so does the call of
    [x.send], which is no function, when [x.readyState] is
    [WebSocket.OPEN]. On any other decoded element the test is false. *)
Definition forEach_throws (x : json number) : bool :=
  match x with
  | JNull => true
  | JObj m =>
      match m !! "readyState" with
      | Some (JNum n) => is_OPEN n
      | _ => false
      end
  | _ => false
  end.

(** The [try] block of the [/state] branch with the room id [state], where
    [rooms['state']] is the inherited value [ph]. The assignment
    [rooms[roomId].state = state] throws on [null] and on a boolean, a
    number or a string (the module is in strict mode); on an array it adds
    a property that nothing reads; on an object it sets [state]. Then
    [forEach] runs over the decoded elements of [clients] and, if none
    throws, over the WebSocket objects pushed after them. *)
Definition update_inherited_state (ph : phantom)
    (rooms : gmap string (room number conn)) (ws : conn) (payload : string)
    : result number conn * option phantom :=
  match JSON_parse payload with
  | None => (Result rooms [] CaughtError None, Some ph)
  | Some st =>
      match ph_value ph with
      | JObj m =>
          let ph' := Phantom (JObj (<["state" := st]> m)) (ph_pushed ph) in
          match m !! "clients" with
          | Some (JArr l) =>
              if existsb forEach_throws l
              then (Result rooms [] CaughtError (Some ("state", st)), Some ph')
              else (Result rooms
                           (fan_out JSON_stringify is_open ws st (ph_pushed ph))
                           Normal (Some ("state", st)),
                    Some ph')
          | _ => (Result rooms [] CaughtError (Some ("state", st)), Some ph')
          end
      | JArr _ => (Result rooms [] CaughtError (Some ("state", st)), Some ph)
      | _ => (Result rooms [] CaughtError None, Some ph)
      end
  end.

(** The message handler where [Object.prototype.state] is [proto] ([None]:
    not assigned): the result, and [Object.prototype.state] after it. *)
Definition on_message_under (proto : option phantom)
    (rooms : gmap string (room number conn)) (ws : conn) (data : string)
    : result number conn * option phantom :=
  let lineSplit := split data in
  let builtin :=
    let res := on_message JSON_parse JSON_stringify token is_open rooms ws data in
    (res,
     match res_stray res with
     | Some (k, v) =>
         if bool_decide (k = "__proto__") then Some (Phantom v []) else proto
     | None => proto
     end) in
  match proto with
  | Some ph =>
      if bool_decide (is_Some (rooms !! "state")) then builtin
      else if bool_decide (lineSplit = ["/room"; token; "state"]) then
        join_inherited_state ph rooms ws
      else if bool_decide (lineSplit !! 0 = Some "/state")
              && bool_decide (2 < length lineSplit)
              && bool_decide (lineSplit !! 1 = Some "state") then
        update_inherited_state ph rooms ws (join (drop 2 lineSplit))
      else builtin
  | None => builtin
  end.

(** The process: the registry, the frames sent so far,
    [Object.prototype.state], and whether an exception has left a handler,
    on which the process exits. *)
Record server := Server {
  srv_rooms : gmap string (room number conn);
  srv_sent : list (conn * string);
  srv_proto : option phantom;
  srv_exited : bool
}.

(** The delivery of one [message] event to the process; a process that has
    exited handles nothing. *)
Definition serve_frame (s : server) (e : conn * string) : server :=
  if srv_exited s then s
  else
    let r := on_message_under (srv_proto s) (srv_rooms s) e.1 e.2 in
    Server (res_rooms r.1) (srv_sent s ++ res_sent r.1) r.2
           (match res_end r.1 with UncaughtError => true | _ => false end).

(** The [message] events [events], delivered in order to a process that
    starts with the registry [rooms] and the [Object.prototype] of the
    runtime. *)
Definition serve (rooms : gmap string (room number conn))
    (events : list (conn * string)) : server :=
  foldl serve_frame (Server rooms [] None false) events.

End Prototype.

Arguments phantom : clear implicits.
Arguments server : clear implicits.

(** ** An executable instance of the JSON built-ins

    [MiniJSON] implements [JSON.parse] and [JSON.stringify] on a fragment
    of JSON: [null], [true], [false], integers, strings without escape
    sequences, arrays and objects, with white space between tokens. It is
    used to run the handler on concrete frames; on the texts used below it
    agrees with the built-ins. *)
Module MiniJSON.

Definition value := json Z.

Definition dquote : ascii := "034"%char.

Definition quote (s : string) : string :=
  String dquote (s +:+ String dquote EmptyString).

Fixpoint stringify (v : value) : string :=
  match v with
  | JNull => "null"
  | JBool b => if b then "true" else "false"
  | JNum n => pretty n
  | JStr s => quote s
  | JArr l => "[" +:+ String.concat "," (map stringify l) +:+ "]"
  | JObj m =>
      "{" +:+ String.concat ","
                (map_fold (λ k x acc, acc ++ [quote k +:+ ":" +:+ stringify x]) [] m)
          +:+ "}"
  end.

Definition is_ws (c : ascii) : bool :=
  let n := nat_of_ascii c in
  (n =? 32) || (n =? 9) || (n =? 10) || (n =? 13).

Fixpoint skip_ws (s : string) : string :=
  match s with
  | String c s' => if is_ws c then skip_ws s' else s
  | EmptyString => s
  end.

Definition digit (c : ascii) : option Z :=
  let n := nat_of_ascii c in
  if (48 <=? n) && (n <=? 57) then Some (Z.of_nat (n - 48)) else None.

(** The digits at the head of [s], read in base ten onto [acc]. *)
Fixpoint digits (acc : Z) (s : string) : Z * string :=
  match s with
  | String c s' =>
      match digit c with
      | Some d => digits (10 * acc + d) s'
      | None => (acc, s)
      end
  | EmptyString => (acc, s)
  end.

(** No fraction and no exponent in this fragment. *)
Definition number_ends (s : string) : bool :=
  match s with
  | String c _ => negb (bool_decide (c ∈ ["."; "e"; "E"]%char))
  | EmptyString => true
  end.

(** An integer without sign: [0], or a digit from 1 to 9 and more digits. *)
Definition unsigned (s : string) : option (Z * string) :=
  match s with
  | String c s' =>
      match digit c with
      | Some 0%Z => if number_ends s' then Some (0%Z, s') else None
      | Some d => let '(n, r) := digits d s' in
                  if number_ends r then Some (n, r) else None
      | None => None
      end
  | EmptyString => None
  end.

(** The characters up to the closing quote; no escapes, no controls. *)
Fixpoint string_body (s : string) : option (string * string) :=
  match s with
  | String c s' =>
      if Ascii.eqb c dquote then Some (EmptyString, s')
      else if Ascii.eqb c "\"%char || (nat_of_ascii c <? 32) then None
      else match string_body s' with
           | Some (t, r) => Some (String c t, r)
           | None => None
           end
  | EmptyString => None
  end.

(** [expect w s]: [s] without its prefix [w]. *)
Fixpoint expect (w s : string) : option string :=
  match w, s with
  | EmptyString, _ => Some s
  | String a w', String b s' => if Ascii.eqb a b then expect w' s' else None
  | _, _ => None
  end.

Fixpoint parse_value (fuel : nat) (s : string) {struct fuel}
    : option (value * string) :=
  match fuel with
  | O => None
  | S fuel =>
      match skip_ws s with
      | EmptyString => None
      | String c r =>
          if Ascii.eqb c "n" then r' ← expect "ull" r; Some (JNull, r')
          else if Ascii.eqb c "t" then r' ← expect "rue" r; Some (JBool true, r')
          else if Ascii.eqb c "f" then r' ← expect "alse" r; Some (JBool false, r')
          else if Ascii.eqb c dquote then
            '(t, r') ← string_body r; Some (JStr t, r')
          else if Ascii.eqb c "-" then
            '(n, r') ← unsigned r; Some (JNum (- n)%Z, r')
          else if Ascii.eqb c "[" then
            match skip_ws r with
            | String "]" r' => Some (JArr [], r')
            | r' => '(vs, r'') ← parse_elements fuel r'; Some (JArr vs, r'')
            end
          else if Ascii.eqb c "{" then
            match skip_ws r with
            | String "}" r' => Some (JObj ∅, r')
            | r' => '(kvs, r'') ← parse_members fuel r';
                    Some (JObj (Object_fromEntries kvs), r'')
            end
          else '(n, r') ← unsigned (String c r); Some (JNum n, r')
      end
  end
with parse_elements (fuel : nat) (s : string) {struct fuel}
    : option (list value * string) :=
  match fuel with
  | O => None
  | S fuel =>
      '(v, r) ← parse_value fuel s;
      match skip_ws r with
      | String "," r' => '(vs, r'') ← parse_elements fuel r'; Some (v :: vs, r'')
      | String "]" r' => Some ([v], r')
      | _ => None
      end
  end
with parse_members (fuel : nat) (s : string) {struct fuel}
    : option (list (string * value) * string) :=
  match fuel with
  | O => None
  | S fuel =>
      match skip_ws s with
      | String c r =>
          if Ascii.eqb c dquote then
            '(k, r1) ← string_body r;
            r2 ← expect ":" (skip_ws r1);
            '(v, r3) ← parse_value fuel r2;
            match skip_ws r3 with
            | String "," r' =>
                '(kvs, r'') ← parse_members fuel r'; Some ((k, v) :: kvs, r'')
            | String "}" r' => Some ([(k, v)], r')
            | _ => None
            end
          else None
      | EmptyString => None
      end
  end.

Definition parse (s : string) : option value :=
  '(v, r) ← parse_value (2 * String.length s + 2) s;
  match skip_ws r with
  | EmptyString => Some v
  | _ => None
  end.

End MiniJSON.

(** ** Observations and a concrete deployment *)

(** The texts that connection [c] is sent, oldest first. *)
Definition received {conn} `{EqDecision conn} (c : conn)
    (out : list (conn * string)) : list string :=
  omap (λ p, if decide (p.1 = c) then Some p.2 else None) out.

(** A deployment to run the handler: connections are numbered, the shared
    token is [abc], connection 3 is closed and every other one is open. *)
Module Demo.

Definition conn := nat.
Definition token : string := "abc".
Definition is_open (c : conn) : bool := negb (c =? 3).

Definition on_message :=
  on_message (conn := conn) MiniJSON.parse MiniJSON.stringify token is_open.
Definition saveStateToDisk :=
  saveStateToDisk (conn := conn) MiniJSON.stringify.
Definition load_db := load_db (conn := conn) MiniJSON.parse.
Definition startup := startup (conn := conn) MiniJSON.parse MiniJSON.stringify.
Definition run :=
  run (conn := conn) MiniJSON.parse MiniJSON.stringify token is_open.

(** [WebSocket.OPEN] is 1; in this deployment [JSON.stringify] is taken to
    throw on an object that holds WebSocket objects. *)
Definition is_OPEN (n : Z) : bool := (n =? 1)%Z.
Definition JSON_stringify_live (v : MiniJSON.value) (l : list conn)
    : option string := None.
Definition serve :=
  serve (conn := conn) MiniJSON.parse MiniJSON.stringify token is_open
        is_OPEN JSON_stringify_live.

(** The payload [{"x": 1}] and the value it decodes to. *)
Definition payload_x1 : string := "{" +:+ MiniJSON.quote "x" +:+ ": 1}".
Definition value_x1 : MiniJSON.value := JObj {[ "x" := JNum 1%Z ]}.

(** The payload [{"clients":[],"state":0}]: as [Object.prototype.state] it
    behaves as a room that the registry does not hold. *)
Definition payload_room : string :=
  "{" +:+ MiniJSON.quote "clients" +:+ ":[]," +:+ MiniJSON.quote "state" +:+ ":0}".

(** Room [r1] with members 1, 2 and 3 and no state yet. *)
Definition rooms_r1 : gmap string (room Z conn) :=
  {[ "r1" := Room None [1; 2; 3] ]}.

(** Room [r1] with state [{"x":1}] and room [r2] with no state yet. *)
Definition rooms_r1_r2 : gmap string (room Z conn) :=
  <["r1" := Room (Some value_x1) [1; 2]]> {[ "r2" := Room None [3] ]}.

End Demo.

(** * Properties *)

#[local] Ltac unfold_on_message := unfold on_message.
#[local] Ltac unfold_saveStateToDisk :=
  unfold saveStateToDisk, JSON_stringify_object.
#[local] Ltac unfold_load_db := unfold load_db.

(** ** Splitting and joining frames *)

Lemma split_not_nil s : split s ≠ [].
Proof. destruct s as [|c s]; simpl; [done|]. by repeat case_match. Qed.

Lemma split_app_space a b :
  split (a +:+ String " " b) = split a ++ split b.
Proof.
  induction a as [|c a IH]; simpl; [done|].
  destruct (Ascii.eqb c " "); [by rewrite IH|].
  rewrite IH. destruct (split a) eqn:E; [by apply split_not_nil in E|done].
Qed.

Lemma split_no_space s : no_space s = true → split s = [s].
Proof.
  induction s as [|c s IH]; simpl; [done|].
  destruct (Ascii.eqb c " "); simpl; [done|].
  intros Hs. by rewrite IH.
Qed.

Lemma join_cons t ts : ts ≠ [] → join (t :: ts) = t +:+ String " " (join ts).
Proof. by destruct ts. Qed.

Lemma join_split s : join (split s) = s.
Proof.
  induction s as [|c s IH]; simpl; [done|].
  destruct (Ascii.eqb_spec c " ") as [->|_].
  - rewrite join_cons; [|apply split_not_nil]. by rewrite IH.
  - destruct (split s) as [|t ts] eqn:E; [by apply split_not_nil in E|].
    rewrite <- IH. by destruct ts.
Qed.

Lemma split_singleton s t : split s = [t] → t = s.
Proof. intros E. by rewrite <- (join_split s), E. Qed.

(** The frame [/room <a> <b>] splits into its three fields. *)
Lemma split_room_frame a b :
  no_space a = true → no_space b = true →
  split ("/room " +:+ a +:+ " " +:+ b) = ["/room"; a; b].
Proof.
  intros Ha Hb.
  change ("/room " +:+ a +:+ " " +:+ b)
    with ("/room" +:+ String " " (a +:+ String " " b)).
  by rewrite !split_app_space, (split_no_space a), (split_no_space b).
Qed.

(** The frame [/state <rid> <payload>] splits into the verb, the room id
    and the pieces of the payload, which [join] puts together again. *)
Lemma split_state_frame rid payload :
  no_space rid = true →
  split ("/state " +:+ rid +:+ " " +:+ payload) = "/state" :: rid :: split payload.
Proof.
  intros Hr.
  change ("/state " +:+ rid +:+ " " +:+ payload)
    with ("/state" +:+ String " " (rid +:+ String " " payload)).
  by rewrite !split_app_space, (split_no_space rid).
Qed.

(** ** The message handler *)

Section Handler.
Context {number : Type}.
Context {conn : Type} `{EqDecision conn}.
Variable JSON_parse : string → option (json number).
Variable JSON_stringify : json number → string.
Variable token : string.
Variable is_open : conn → bool.

#[local] Abbreviation room := (room number conn).
#[local] Abbreviation on_message :=
  (on_message JSON_parse JSON_stringify token is_open).
#[local] Abbreviation fan_out := (fan_out JSON_stringify is_open).

Implicit Types (rooms : gmap string room) (ws c : conn) (r : room).
Implicit Types (rid tok payload data : string) (v : json number).

Lemma js_in_own rooms rid r : rooms !! rid = Some r → js_in rid rooms = true.
Proof. intros E. unfold js_in. by rewrite E, bool_decide_eq_true_2. Qed.

Lemma js_in_not_own rooms rid :
  rooms !! rid = None →
  js_in rid rooms = bool_decide (rid ∈ Object_prototype_names).
Proof.
  intros E. unfold js_in. rewrite E, bool_decide_eq_false_2; [done|].
  by intros [? ?].
Qed.

(** The [forEach] sends the frame to the open clients other than the
    sender, in the order of [clients]. *)
Lemma fan_out_from acc ws v cl :
  foldl (λ out client,
           if bool_decide (client ≠ ws) && is_open client
           then out ++ [(client, state_frame (JSON_stringify_state JSON_stringify (Some v)))]
           else out) acc cl =
  acc ++ map (λ c, (c, "/state " +:+ JSON_stringify v))
             (filter (λ c, c ≠ ws ∧ is_open c = true) cl).
Proof.
  revert acc. induction cl as [|c cl IH]; intros acc; simpl.
  - by rewrite app_nil_r.
  - rewrite IH, filter_cons.
    destruct (decide (c ≠ ws ∧ is_open c = true)) as [[Hc Ho]|Hn].
    + rewrite bool_decide_eq_true_2, Ho by done. simpl.
      by rewrite <- app_assoc.
    + case_bool_decide; simpl; [|done].
      destruct (is_open c); [|done]. by destruct Hn.
Qed.

Lemma fan_out_filter ws v cl :
  fan_out ws v cl =
  map (λ c, (c, "/state " +:+ JSON_stringify v))
      (filter (λ c, c ≠ ws ∧ is_open c = true) cl).
Proof. apply fan_out_from. Qed.

Lemma received_cons c x text (out : list (conn * string)) :
  received c ((x, text) :: out) =
  if decide (x = c) then text :: received c out else received c out.
Proof. unfold received. simpl. by destruct (decide (x = c)). Qed.

Lemma received_map_const c text (l : list conn) :
  NoDup l →
  received c (map (λ x, (x, text)) l) = if decide (c ∈ l) then [text] else [].
Proof.
  induction 1 as [|x l Hx _ IH].
  - destruct (decide (c ∈ [])) as [Hin|_]; [|done].
    by apply elem_of_nil in Hin.
  - rewrite map_cons, received_cons, IH.
    destruct (decide (x = c)) as [->|Hne].
    + rewrite (decide_False (P := c ∈ l)) by done.
      by rewrite decide_True by apply list_elem_of_here.
    + destruct (decide (c ∈ l)) as [Hin|Hin].
      * by rewrite decide_True by by apply list_elem_of_further.
      * rewrite decide_False; [done|].
        rewrite elem_of_cons. intros [?|?]; [congruence|done].
Qed.

(** The handler on a frame whose pieces are [/room], [tok] and [rid]. *)
Lemma on_message_room_tokens rooms ws data tok rid :
  split data = ["/room"; tok; rid] →
  on_message rooms ws data =
  if bool_decide (tok ≠ token) then Result rooms [] Normal None
  else if js_in rid rooms then
    match rooms !! rid with
    | Some r =>
        Result (<[rid := Room (state r) (clients r ++ [ws])]> rooms)
               [(ws, state_frame (JSON_stringify_state JSON_stringify (state r)))]
               Normal None
    | None => Result rooms [] UncaughtError None
    end
  else Result (<[rid := Room None [ws]]> rooms) [] Normal None.
Proof.
  intros E. unfold_on_message. rewrite E. simpl.
  destruct (decide (tok = token)) as [->|Hne].
  - by rewrite !bool_decide_eq_false_2 by (intros ?; congruence).
  - by rewrite !bool_decide_eq_true_2 by congruence.
Qed.

(** The handler on the frame [/state <rid> <payload>]. *)
Lemma on_message_state_frame rooms ws rid payload :
  no_space rid = true →
  on_message rooms ws ("/state " +:+ rid +:+ " " +:+ payload) =
  if negb (js_in rid rooms) then Result rooms [] Normal None
  else
    match JSON_parse payload with
    | None => Result rooms [] CaughtError None
    | Some st =>
        match rooms !! rid with
        | Some r =>
            Result (<[rid := Room (Some st) (clients r)]> rooms)
                   (fan_out ws st (clients r)) Normal None
        | None => Result rooms [] CaughtError (Some (rid, st))
        end
    end.
Proof.
  intros Hrid. unfold_on_message.
  rewrite split_state_frame by done. simpl.
  rewrite bool_decide_eq_true_2, drop_0, join_split; [done|].
  pose proof (split_not_nil payload). destruct (split payload); simpl; [done|lia].
Qed.

(** An update of a room of the registry with a payload that decodes. *)
Lemma on_message_update rooms ws rid payload r v :
  no_space rid = true →
  rooms !! rid = Some r →
  JSON_parse payload = Some v →
  on_message rooms ws ("/state " +:+ rid +:+ " " +:+ payload) =
  Result (<[rid := Room (Some v) (clients r)]> rooms)
         (map (λ c, (c, "/state " +:+ JSON_stringify v))
              (filter (λ c, c ≠ ws ∧ is_open c = true) (clients r)))
         Normal None.
Proof.
  intros Hrid Hr Hv. rewrite on_message_state_frame by done.
  by rewrite (js_in_own _ _ _ Hr), Hv, Hr, fan_out_filter.
Qed.

(** C1. An update [/state <rid> <payload>] with a payload that decodes to
    [v], sent by [ws] on a room of the registry whose member list has no
    repetition: the room's state becomes [v] and its members stay; a
    connection is sent exactly one frame, [/state] followed by the
    serialization of [v], when it is a member other than [ws] that is
    open, and no frame otherwise; so the sender is sent nothing. *)
Theorem update_replaces_state_and_fans_out rooms ws rid payload r v :
  no_space rid = true →
  rooms !! rid = Some r →
  JSON_parse payload = Some v →
  NoDup (clients r) →
  let res := on_message rooms ws ("/state " +:+ rid +:+ " " +:+ payload) in
  res_rooms res = <[rid := Room (Some v) (clients r)]> rooms
  ∧ res_end res = Normal
  ∧ received ws (res_sent res) = []
  ∧ ∀ c, received c (res_sent res) =
         if decide (c ∈ clients r ∧ c ≠ ws ∧ is_open c = true)
         then ["/state " +:+ JSON_stringify v] else [].
Proof.
  intros Hrid Hr Hv Hnd res. subst res.
  rewrite (on_message_update _ _ _ _ _ _ Hrid Hr Hv). simpl.
  assert (Hall : ∀ c,
    received c (map (λ c, (c, "/state " +:+ JSON_stringify v))
                    (filter (λ c, c ≠ ws ∧ is_open c = true) (clients r))) =
    if decide (c ∈ clients r ∧ c ≠ ws ∧ is_open c = true)
    then ["/state " +:+ JSON_stringify v] else []).
  { intros c. rewrite received_map_const by by apply NoDup_filter.
    destruct (decide (c ∈ filter _ (clients r))) as [Hin|Hin];
      rewrite list_elem_of_filter in Hin.
    - by rewrite decide_True by tauto.
    - by rewrite decide_False by tauto. }
  split_and!; [done|done| |done].
  rewrite Hall. by rewrite decide_False by tauto.
Qed.

(** C8. An update sent by a connection that is not a member of the room:
    the room's state is replaced and every open member is sent the
    frame; a member that sends the same frame has the same effect on the
    registry, and the same frames go out less those to itself. *)
Theorem update_needs_no_membership rooms ws rid payload r v :
  no_space rid = true →
  rooms !! rid = Some r →
  JSON_parse payload = Some v →
  ws ∉ clients r →
  let frame := "/state " +:+ rid +:+ " " +:+ payload in
  let res := on_message rooms ws frame in
  res_rooms res = <[rid := Room (Some v) (clients r)]> rooms
  ∧ res_sent res = map (λ c, (c, "/state " +:+ JSON_stringify v))
                       (filter (λ c, is_open c = true) (clients r))
  ∧ res_end res = Normal
  ∧ ∀ a, res_rooms (on_message rooms a frame) = res_rooms res
         ∧ res_end (on_message rooms a frame) = res_end res
         ∧ res_sent (on_message rooms a frame) =
           filter (λ p, p.1 ≠ a) (res_sent res).
Proof.
  intros Hrid Hr Hv Hws frame res. subst res frame.
  rewrite (on_message_update _ _ _ _ _ _ Hrid Hr Hv). simpl.
  assert (Hf : filter (λ c, c ≠ ws ∧ is_open c = true) (clients r) =
               filter (λ c, is_open c = true) (clients r)).
  { clear Hr. induction (clients r) as [|c cl IH]; [done|].
    apply not_elem_of_cons in Hws as [Hne Hws].
    rewrite !filter_cons, IH by done.
    destruct (decide (is_open c = true)).
    - by rewrite decide_True.
    - by rewrite decide_False by tauto. }
  rewrite Hf. split_and!; try done.
  intros a. rewrite (on_message_update _ a _ _ _ _ Hrid Hr Hv). simpl.
  split_and!; try done.
  clear Hf Hws Hr. induction (clients r) as [|c cl IH]; [done|].
  rewrite !filter_cons.
  destruct (decide (c ≠ a ∧ is_open c = true)) as [[Hc Ho]|Hn].
  - rewrite decide_True by done. simpl. rewrite filter_cons. simpl.
    rewrite decide_True by done. by rewrite IH.
  - destruct (decide (is_open c = true)) as [Ho|Ho]; [|done].
    simpl. rewrite filter_cons. simpl.
    rewrite decide_False by tauto. done.
Qed.

(** C3. A join [/room <token> <rid>] with the shared token on a room of
    the registry: the connection is appended to the room's members and
    is sent one frame, [/state] followed by the serialization of the
    room's state, or [/state undefined] when the state is unset. *)
Theorem join_existing_room rooms ws rid r :
  no_space token = true →
  no_space rid = true →
  rooms !! rid = Some r →
  on_message rooms ws ("/room " +:+ token +:+ " " +:+ rid) =
  Result (<[rid := Room (state r) (clients r ++ [ws])]> rooms)
         [(ws, "/state " +:+ match state r with
                             | Some s => JSON_stringify s
                             | None => "undefined"
                             end)]
         Normal None.
Proof.
  intros Htok Hrid Hr.
  rewrite (on_message_room_tokens _ _ _ token rid) by by apply split_room_frame.
  rewrite bool_decide_eq_false_2 by (intros ?; congruence).
  rewrite (js_in_own _ _ _ Hr), Hr. by destruct (state r).
Qed.

(** A join with the shared token on a room id that the registry does not
    hold: the room is created when the id is not the name of a property
    of [Object.prototype]; for such a name [rooms[roomId]] is not a room
    and the handler throws. *)
Lemma join_unknown_room rooms ws rid :
  no_space token = true →
  no_space rid = true →
  rooms !! rid = None →
  on_message rooms ws ("/room " +:+ token +:+ " " +:+ rid) =
  if decide (rid ∈ Object_prototype_names)
  then Result rooms [] UncaughtError None
  else Result (<[rid := Room None [ws]]> rooms) [] Normal None.
Proof.
  intros Htok Hrid Hr.
  rewrite (on_message_room_tokens _ _ _ token rid) by by apply split_room_frame.
  rewrite bool_decide_eq_false_2 by (intros ?; congruence).
  rewrite (js_in_not_own _ _ Hr), Hr.
  by destruct (decide (rid ∈ Object_prototype_names));
    [rewrite bool_decide_eq_true_2|rewrite bool_decide_eq_false_2].
Qed.

(** C5. A [/room] frame whose token differs from the shared token leaves
    the registry as it is and sends nothing, whatever the token and the
    room id are. *)
Theorem join_wrong_token rooms ws tok rid :
  tok ≠ token →
  on_message rooms ws ("/room " +:+ tok +:+ " " +:+ rid) =
  Result rooms [] Normal None.
Proof.
  intros Hne.
  assert (Hs : split ("/room " +:+ tok +:+ " " +:+ rid) =
               "/room" :: split tok ++ split rid).
  { change ("/room " +:+ tok +:+ " " +:+ rid)
      with ("/room" +:+ String " " (tok +:+ String " " rid)).
    by rewrite !split_app_space. }
  destruct (split tok) as [|t [|t' ts]] eqn:Et; [by apply split_not_nil in Et| |];
  destruct (split rid) as [|u [|u' us]] eqn:Eu;
    try by apply split_not_nil in Eu.
  - apply split_singleton in Et as ->. apply split_singleton in Eu as ->.
    rewrite (on_message_room_tokens _ _ _ tok rid) by done.
    by rewrite bool_decide_eq_true_2.
  - unfold_on_message. rewrite Hs. by simpl.
  - unfold_on_message. rewrite Hs. simpl.
    by rewrite bool_decide_eq_false_2 by (rewrite length_app; simpl; lia).
  - unfold_on_message. rewrite Hs. simpl.
    by rewrite bool_decide_eq_false_2 by (rewrite length_app; simpl; lia).
Qed.

(** An update [/state <rid> <payload>] on a room id that the registry
    does not hold, or with a payload that does not decode: the rooms of
    the registry are left as they are, nothing is sent and no exception
    leaves the handler. This says nothing of [res_stray]: see
    [update_of_inherited_name] for the room ids that [in] finds without a
    room. *)
Theorem update_failure_changes_nothing rooms ws rid payload :
  no_space rid = true →
  rooms !! rid = None ∨ JSON_parse payload = None →
  let res := on_message rooms ws ("/state " +:+ rid +:+ " " +:+ payload) in
  res_rooms res = rooms ∧ res_sent res = [] ∧ res_end res ≠ UncaughtError.
Proof.
  intros Hrid Hfail res. subst res.
  rewrite on_message_state_frame by done.
  destruct (js_in rid rooms); simpl; [|done].
  destruct Hfail as [Hr|Hp].
  - rewrite Hr. by destruct (JSON_parse payload).
  - by rewrite Hp.
Qed.

(** An update with a payload that decodes, on a room id that the registry
    does not hold and that is a property name of [Object.prototype]: the
    [in] test passes, the decoded value is assigned to the inherited object
    ([Object.prototype] itself for [__proto__]) and the exception of
    [undefined.forEach] is caught. *)
Lemma update_of_inherited_name rooms ws rid payload v :
  no_space rid = true →
  rooms !! rid = None →
  rid ∈ Object_prototype_names →
  JSON_parse payload = Some v →
  on_message rooms ws ("/state " +:+ rid +:+ " " +:+ payload)
  = Result rooms [] CaughtError (Some (rid, v)).
Proof.
  intros Hrid Hr Hin Hv. rewrite on_message_state_frame by done.
  by rewrite (js_in_not_own _ _ Hr), bool_decide_eq_true_2, Hv, Hr.
Qed.

(** An update on a room id that neither the registry nor [Object.prototype]
    holds is dropped at the [in] test, without any effect. *)
Lemma update_of_unknown_name rooms ws rid payload :
  no_space rid = true →
  rooms !! rid = None →
  rid ∉ Object_prototype_names →
  on_message rooms ws ("/state " +:+ rid +:+ " " +:+ payload)
  = Result rooms [] Normal None.
Proof.
  intros Hrid Hr Hin. rewrite on_message_state_frame by done.
  by rewrite (js_in_not_own _ _ Hr), bool_decide_eq_false_2.
Qed.

(** C7. A frame whose pieces are [/room], a token and a room id, one of
    them empty: the fields are not checked for emptiness. The frame is
    dropped without effect exactly when its token differs from the shared
    token; with the shared token and an empty room id it is a join of the
    room whose id is the empty string. *)
Theorem join_with_empty_field rooms ws data tok rid :
  split data = ["/room"; tok; rid] →
  tok = "" ∨ rid = "" →
  (on_message rooms ws data = Result rooms [] Normal None ↔ tok ≠ token)
  ∧ (tok = token → rid = "" →
     on_message rooms ws data =
     match rooms !! "" with
     | Some r =>
         Result (<["" := Room (state r) (clients r ++ [ws])]> rooms)
                [(ws, state_frame (JSON_stringify_state JSON_stringify (state r)))]
                Normal None
     | None => Result (<["" := Room None [ws]]> rooms) [] Normal None
     end).
Proof.
  intros Hs _. rewrite (on_message_room_tokens _ _ _ _ _ Hs). split.
  - destruct (decide (tok = token)) as [->|Hne].
    + rewrite bool_decide_eq_false_2 by (intros ?; congruence).
      split; [|done]. intros Heq. exfalso.
      destruct (rooms !! rid) as [r|] eqn:Hr.
      * by rewrite (js_in_own _ _ _ Hr) in Heq.
      * destruct (js_in rid rooms); [done|].
        injection Heq as Heq. apply (f_equal (.!! rid)) in Heq.
        by rewrite lookup_insert_eq, Hr in Heq.
    + by rewrite bool_decide_eq_true_2.
  - intros -> ->. rewrite bool_decide_eq_false_2 by (intros ?; congruence).
    destruct (rooms !! "") as [r|] eqn:Hr.
    + by rewrite (js_in_own _ _ _ Hr).
    + by rewrite (js_in_not_own _ _ Hr).
Qed.

(** What one invocation of the handler can do to the registry: nothing,
    a join of a room it holds, the creation of a room, or an update. *)
Lemma on_message_cases rooms ws data :
  let res := on_message rooms ws data in
  (res_rooms res = rooms ∧ res_sent res = [])
  ∨ (∃ rid r, split data = ["/room"; token; rid] ∧ rooms !! rid = Some r
       ∧ res = Result (<[rid := Room (state r) (clients r ++ [ws])]> rooms)
                      [(ws, state_frame (JSON_stringify_state JSON_stringify (state r)))]
                      Normal None)
  ∨ (∃ rid, split data = ["/room"; token; rid] ∧ rooms !! rid = None
       ∧ res = Result (<[rid := Room None [ws]]> rooms) [] Normal None)
  ∨ (∃ rid rest r v, split data = "/state" :: rid :: rest
       ∧ rooms !! rid = Some r ∧ JSON_parse (join rest) = Some v
       ∧ res = Result (<[rid := Room (Some v) (clients r)]> rooms)
                      (fan_out ws v (clients r)) Normal None).
Proof.
  intros res. subst res.
  destruct (split data) as [|verb [|a [|b rest]]] eqn:Hs;
    try (left; unfold_on_message; rewrite Hs; simpl;
         by repeat case_bool_decide).
  destruct (decide (verb = "/room")) as [->|Hroom].
  - destruct rest as [|? ?].
    + destruct (decide (a = token)) as [->|Hne];
        rewrite (on_message_room_tokens _ _ _ _ _ Hs).
      * rewrite bool_decide_eq_false_2 by (intros ?; congruence).
        destruct (rooms !! b) as [r|] eqn:Hr.
        -- rewrite (js_in_own _ _ _ Hr). right; left. by exists b, r.
        -- destruct (js_in b rooms); [by left|]. do 2 right; left. by exists b.
      * rewrite bool_decide_eq_true_2 by done. by left.
    + left. unfold_on_message. rewrite Hs. by simpl.
  - unfold_on_message. rewrite Hs. simpl.
    rewrite (bool_decide_eq_false_2 (Some verb = Some "/room")) by congruence.
    simpl. case_bool_decide; simpl; [|by left].
    destruct (js_in a rooms); simpl; [|by left].
    destruct (JSON_parse (join (b :: rest))) as [v|] eqn:Hv; [|by left].
    destruct (rooms !! a) as [r|] eqn:Hr; [|by left].
    do 3 right. exists a, (b :: rest), r, v. by simplify_eq.
Qed.

(** C9. Whatever frame the handler processes, a room of the registry is
    still there afterwards and its member list is the former one or the
    former one with the sender appended, the latter only when the frame
    is a join of that room with the shared token. *)
Theorem rooms_and_members_only_grow rooms ws data rid r :
  rooms !! rid = Some r →
  ∃ r', res_rooms (on_message rooms ws data) !! rid = Some r'
        ∧ clients r `prefix_of` clients r'
        ∧ (clients r' = clients r
           ∨ (clients r' = clients r ++ [ws]
              ∧ split data = ["/room"; token; rid])).
Proof.
  intros Hr.
  destruct (on_message_cases rooms ws data)
    as [[-> _]|[(k & r0 & Hs & Hk & ->)|[(k & Hs & Hk & ->)|(k & rest & r0 & v & Hs & Hk & _ & ->)]]];
    simpl.
  - exists r. by eauto.
  - destruct (decide (k = rid)) as [->|Hne].
    + rewrite lookup_insert_eq. simplify_eq. eexists; split; [done|]. simpl.
      split; [by apply prefix_app_r|by right].
    + rewrite lookup_insert_ne by done. exists r. by eauto.
  - rewrite lookup_insert_ne by congruence. exists r. by eauto.
  - destruct (decide (k = rid)) as [->|Hne].
    + rewrite lookup_insert_eq. simplify_eq. eexists; split; [done|]. simpl.
      by eauto.
    + rewrite lookup_insert_ne by done. exists r. by eauto.
Qed.

End Handler.

(** ** The snapshot *)

Section Snapshot.
Context {number : Type}.
Context {conn : Type}.
Variable JSON_parse : string → option (json number).
Variable JSON_stringify : json number → string.

#[local] Abbreviation room := (room number conn).
#[local] Abbreviation saveStateToDisk :=
  (saveStateToDisk (conn := conn) JSON_stringify).
#[local] Abbreviation load_db := (load_db (conn := conn) JSON_parse).

Implicit Types (rooms : gmap string room) (r : room) (rid : string).

(** Defining properties from left to right is the union of the entries,
    a later entry before an earlier one. *)
Lemma Object_fromEntries_from {V} (l : list (string * V)) (o : gmap string V) :
  foldl (λ o kv, <[kv.1 := kv.2]> o) o l = list_to_map (reverse l) ∪ o.
Proof.
  revert o. induction l as [|[k x] l IH]; intros o; simpl.
  - by rewrite (left_id_L ∅ (∪)).
  - rewrite IH, reverse_cons, list_to_map_app. simpl.
    rewrite <- (assoc_L (∪)). f_equal.
    by rewrite <- insert_union_l, (left_id_L ∅ (∪)).
Qed.

Lemma Object_fromEntries_entries {V W} (f : V → W) (o : gmap string V) :
  Object_fromEntries (map (λ kv, (kv.1, f kv.2)) (Object_entries o)) = f <$> o.
Proof.
  unfold Object_fromEntries, Object_entries.
  rewrite Object_fromEntries_from, (right_id_L ∅ (∪)).
  assert (Hg : map (λ kv : string * V, (kv.1, f kv.2)) (map_to_list o)
               = prod_map id f <$> map_to_list o).
  { apply list_fmap_ext. by intros ? [? ?]. }
  rewrite Hg, <- (list_to_map_to_list (f <$> o)), map_to_list_fmap.
  symmetry. apply list_to_map_proper.
  - rewrite <- list_fmap_compose. apply (NoDup_fst_map_to_list o).
  - by rewrite reverse_Permutation.
Qed.

Lemma saved_states_fmap rooms : saved_states rooms = state <$> rooms.
Proof. apply Object_fromEntries_entries. Qed.

(** The text written is that of the mapping from the ids of the rooms
    whose state is set to these states. *)
Lemma saveStateToDisk_text rooms :
  saveStateToDisk rooms = JSON_stringify (JObj (omap state rooms)).
Proof.
  unfold_saveStateToDisk.
  rewrite saved_states_fmap. do 2 f_equal.
  apply map_eq. intros k. rewrite !lookup_omap, lookup_fmap.
  by destruct (rooms !! k).
Qed.

(** Loading a text that decodes to the object [o]. *)
Lemma load_db_object text (o : gmap string (json number)) :
  JSON_parse text = Some (JObj o) →
  load_db (Some text) = (λ v, Room (Some v) []) <$> o.
Proof.
  intros Hp. unfold_load_db. rewrite Hp. simpl.
  apply (Object_fromEntries_entries (λ v, Room (Some v) [])).
Qed.

(** C2. A snapshot write followed by a load of the text written, where
    [JSON.parse] gives back the mapping that [JSON.stringify] was given:
    every room whose state is set exists after the load, with that state
    and no members. *)
Theorem snapshot_round_trip rooms rid r v :
  JSON_parse (JSON_stringify (JObj (omap state rooms)))
    = Some (JObj (omap state rooms)) →
  rooms !! rid = Some r →
  state r = Some v →
  load_db (Some (saveStateToDisk rooms)) !! rid = Some (Room (Some v) []).
Proof.
  intros Hrt Hr Hv. rewrite saveStateToDisk_text, (load_db_object _ _ Hrt).
  by rewrite lookup_fmap, lookup_omap, Hr; simpl; rewrite Hv.
Qed.

(** C10. A room whose state is unset has an [undefined] entry in the
    object that is serialized, so the text written is the one that would
    be written without the room; where [JSON.parse] gives back the
    mapping that [JSON.stringify] was given, the room is not in the
    registry after a load of that text. A room whose state is set is
    written with it and is in the registry after the load. *)
Theorem unset_rooms_are_not_saved rooms rid r :
  rooms !! rid = Some r →
  let text := saveStateToDisk rooms in
  let round_trip :=
    JSON_parse (JSON_stringify (JObj (omap state rooms)))
      = Some (JObj (omap state rooms)) in
  match state r with
  | None =>
      saved_states rooms !! rid = Some None
      ∧ text = saveStateToDisk (delete rid rooms)
      ∧ (round_trip → load_db (Some text) !! rid = None)
  | Some v =>
      saved_states rooms !! rid = Some (Some v)
      ∧ (round_trip → load_db (Some text) !! rid = Some (Room (Some v) []))
  end.
Proof.
  intros Hr text round_trip. subst text round_trip.
  assert (Hsaved : saved_states rooms !! rid = Some (state r)).
  { by rewrite saved_states_fmap, lookup_fmap, Hr. }
  assert (Hload :
    JSON_parse (JSON_stringify (JObj (omap state rooms)))
      = Some (JObj (omap state rooms)) →
    load_db (Some (saveStateToDisk rooms)) !! rid =
    (λ v, Room (Some v) []) <$> state r).
  { intros Hrt. rewrite saveStateToDisk_text, (load_db_object _ _ Hrt).
    by rewrite lookup_fmap, lookup_omap, Hr. }
  destruct (state r) as [v|] eqn:Hst; [done|].
  split_and!; [done| |done].
  rewrite !saveStateToDisk_text. do 2 f_equal.
  apply map_eq. intros k. rewrite !lookup_omap.
  destruct (decide (k = rid)) as [->|Hne].
  - by rewrite lookup_delete_eq, Hr; simpl.
  - by rewrite lookup_delete_ne.
Qed.

End Snapshot.

(** ** The properties on the concrete deployment *)

(** The update [/state r1 {"x": 1}] from connection 1 on room [r1] with
    members 1, 2 and 3, of which 3 is closed: 2 is sent [/state {"x":1}],
    the payload without its space. *)
Lemma update_replaces_state_and_fans_out_witness :
  let res := Demo.on_message Demo.rooms_r1 1 ("/state r1 " +:+ Demo.payload_x1) in
  res_rooms res = <["r1" := Room (Some Demo.value_x1) [1; 2; 3]]> Demo.rooms_r1
  ∧ res_end res = Normal
  ∧ received 1 (res_sent res) = []
  ∧ ∀ c, received c (res_sent res) =
         if decide (c ∈ [1; 2; 3] ∧ c ≠ 1 ∧ Demo.is_open c = true)
         then ["/state {" +:+ MiniJSON.quote "x" +:+ ":1}"] else [].
Proof.
  apply (update_replaces_state_and_fans_out
           MiniJSON.parse MiniJSON.stringify Demo.token Demo.is_open
           Demo.rooms_r1 1 "r1" Demo.payload_x1 (Room None [1; 2; 3])
           Demo.value_x1).
  - reflexivity.
  - vm_compute. reflexivity.
  - vm_compute. reflexivity.
  - apply (bool_decide_unpack _). vm_compute. exact I.
Defined.

(** The same update from connection 7, which never joined [r1]. *)
Lemma update_needs_no_membership_witness :
  let frame := "/state r1 " +:+ Demo.payload_x1 in
  let res := Demo.on_message Demo.rooms_r1 7 frame in
  res_rooms res = <["r1" := Room (Some Demo.value_x1) [1; 2; 3]]> Demo.rooms_r1
  ∧ res_sent res = map (λ c, (c, "/state " +:+ MiniJSON.stringify Demo.value_x1))
                       (filter (λ c, Demo.is_open c = true) [1; 2; 3])
  ∧ res_end res = Normal
  ∧ ∀ a, res_rooms (Demo.on_message Demo.rooms_r1 a frame) = res_rooms res
         ∧ res_end (Demo.on_message Demo.rooms_r1 a frame) = res_end res
         ∧ res_sent (Demo.on_message Demo.rooms_r1 a frame) =
           filter (λ p, p.1 ≠ a) (res_sent res).
Proof.
  apply (update_needs_no_membership
           MiniJSON.parse MiniJSON.stringify Demo.token Demo.is_open
           Demo.rooms_r1 7 "r1" Demo.payload_x1 (Room None [1; 2; 3])
           Demo.value_x1).
  - reflexivity.
  - vm_compute. reflexivity.
  - vm_compute. reflexivity.
  - apply (bool_decide_unpack _). vm_compute. exact I.
Defined.

(** Connection 4 joins [r1], whose state is unset, and [r2] after it got a
    state. *)
Lemma join_existing_room_witness :
  Demo.on_message Demo.rooms_r1 4 "/room abc r1" =
    Result (<["r1" := Room None [1; 2; 3; 4]]> Demo.rooms_r1)
           [(4, "/state undefined")] Normal None
  ∧ Demo.on_message Demo.rooms_r1_r2 4 "/room abc r1" =
    Result (<["r1" := Room (Some Demo.value_x1) [1; 2; 4]]> Demo.rooms_r1_r2)
           [(4, "/state {" +:+ MiniJSON.quote "x" +:+ ":1}")] Normal None.
Proof.
  split.
  - apply (join_existing_room
             MiniJSON.parse MiniJSON.stringify Demo.token Demo.is_open
             Demo.rooms_r1 4 "r1" (Room None [1; 2; 3]));
      [reflexivity|reflexivity|vm_compute; reflexivity].
  - apply (join_existing_room
             MiniJSON.parse MiniJSON.stringify Demo.token Demo.is_open
             Demo.rooms_r1_r2 4 "r1" (Room (Some Demo.value_x1) [1; 2]));
      [reflexivity|reflexivity|vm_compute; reflexivity].
Defined.

(** C4. The join [/room abc toString] on the empty registry: the registry
    holds no room [toString], yet ['toString' in rooms] is true, the
    handler takes the branch of a room that exists and throws; no room is
    created. *)
Theorem join_inherited_name_throws :
  Demo.on_message ∅ 1 "/room abc toString" = Result ∅ [] UncaughtError None
  ∧ (∅ : gmap string (room Z Demo.conn)) !! "toString" = None.
Proof. split; vm_compute; reflexivity. Qed.

Lemma join_wrong_token_witness :
  Demo.on_message Demo.rooms_r1 4 "/room ABC r1" =
  Result Demo.rooms_r1 [] Normal None.
Proof.
  apply (join_wrong_token
           MiniJSON.parse MiniJSON.stringify Demo.token Demo.is_open
           Demo.rooms_r1 4 "ABC" "r1").
  apply (bool_decide_unpack _). vm_compute. exact I.
Defined.

(** An update on a room id that the registry does not hold, and an update
    of [r1] with a payload that does not decode. *)
Lemma update_failure_changes_nothing_witness :
  (let res := Demo.on_message Demo.rooms_r1 1 "/state r9 [1]" in
   res_rooms res = Demo.rooms_r1 ∧ res_sent res = [] ∧ res_end res ≠ UncaughtError)
  ∧ (let res := Demo.on_message Demo.rooms_r1 1 "/state r1 [1," in
     res_rooms res = Demo.rooms_r1 ∧ res_sent res = [] ∧ res_end res ≠ UncaughtError).
Proof.
  split.
  - apply (update_failure_changes_nothing
             MiniJSON.parse MiniJSON.stringify Demo.token Demo.is_open
             Demo.rooms_r1 1 "r9" "[1]"); [reflexivity|].
    left. vm_compute. reflexivity.
  - apply (update_failure_changes_nothing
             MiniJSON.parse MiniJSON.stringify Demo.token Demo.is_open
             Demo.rooms_r1 1 "r1" "[1,"); [reflexivity|].
    right. vm_compute. reflexivity.
Defined.

(** C7, as the specification states it, fails: with the shared token [abc]
    the frame [/room abc ] has the pieces [/room], [abc] and the empty
    string, and creates the room whose id is the empty string. *)
Lemma join_with_empty_field_counterexample :
  ¬ (∀ (rooms : gmap string (room Z Demo.conn)) ws data tok rid,
       split data = ["/room"; tok; rid] →
       tok = "" ∨ rid = "" →
       res_rooms (Demo.on_message rooms ws data) = rooms
       ∧ res_sent (Demo.on_message rooms ws data) = []).
Proof.
  intros Hclaim.
  destruct (Hclaim ∅ 1 "/room abc " "abc" "" eq_refl (or_intror eq_refl))
    as [Hrooms _].
  apply (f_equal (.!! "")) in Hrooms. vm_compute in Hrooms. discriminate.
Qed.

(** The frames [/room  r1] (empty token) and [/room abc ] (empty room id)
    on the registry that holds [r1]. *)
Lemma join_with_empty_field_witness :
  (Demo.on_message Demo.rooms_r1 4 "/room  r1" = Result Demo.rooms_r1 [] Normal None
   ↔ "" ≠ Demo.token)
  ∧ Demo.on_message Demo.rooms_r1 4 "/room abc " =
    Result (<["" := Room None [4]]> Demo.rooms_r1) [] Normal None.
Proof.
  split.
  - apply (join_with_empty_field
             MiniJSON.parse MiniJSON.stringify Demo.token Demo.is_open
             Demo.rooms_r1 4 "/room  r1" "" "r1"); [reflexivity|by left].
  - apply (join_with_empty_field
             MiniJSON.parse MiniJSON.stringify Demo.token Demo.is_open
             Demo.rooms_r1 4 "/room abc " "abc" "");
      [reflexivity|by right|reflexivity|reflexivity].
Defined.

Lemma rooms_and_members_only_grow_witness :
  ∃ r', res_rooms (Demo.on_message Demo.rooms_r1 4 "/room abc r1") !! "r1" = Some r'
        ∧ [1; 2; 3] `prefix_of` clients r'
        ∧ (clients r' = [1; 2; 3]
           ∨ (clients r' = [1; 2; 3] ++ [4]
              ∧ split "/room abc r1" = ["/room"; Demo.token; "r1"])).
Proof.
  apply (rooms_and_members_only_grow
           MiniJSON.parse MiniJSON.stringify Demo.token Demo.is_open
           Demo.rooms_r1 4 "/room abc r1" "r1" (Room None [1; 2; 3])).
  vm_compute. reflexivity.
Defined.

(** C2, as the specification states it, fails: room [r1] of [rooms_r1] has
    no state yet; the text written is [{}] and the registry loaded from it
    is empty. *)
Lemma snapshot_round_trip_counterexample :
  ¬ (∀ (rooms : gmap string (room Z Demo.conn)) rid r,
       rooms !! rid = Some r →
       Demo.load_db (Some (Demo.saveStateToDisk rooms)) !! rid
       = Some (Room (state r) [])).
Proof.
  intros Hclaim.
  specialize (Hclaim Demo.rooms_r1 "r1" (Room None [1; 2; 3]) eq_refl).
  vm_compute in Hclaim. discriminate.
Qed.

(** Room [r1] of [rooms_r1_r2] is loaded with its state and no members. *)
Lemma snapshot_round_trip_witness :
  Demo.load_db (Some (Demo.saveStateToDisk Demo.rooms_r1_r2)) !! "r1"
  = Some (Room (Some Demo.value_x1) []).
Proof.
  apply (snapshot_round_trip MiniJSON.parse MiniJSON.stringify
           Demo.rooms_r1_r2 "r1" (Room (Some Demo.value_x1) [1; 2])
           Demo.value_x1).
  - vm_compute. reflexivity.
  - vm_compute. reflexivity.
  - reflexivity.
Defined.

(** Room [r2] of [rooms_r1_r2] has no state: the text written is the one
    written without it, and the load does not bring it back. *)
Lemma unset_rooms_are_not_saved_witness :
  saved_states Demo.rooms_r1_r2 !! "r2" = Some None
  ∧ Demo.saveStateToDisk Demo.rooms_r1_r2
    = Demo.saveStateToDisk (delete "r2" Demo.rooms_r1_r2)
  ∧ Demo.load_db (Some (Demo.saveStateToDisk Demo.rooms_r1_r2)) !! "r2" = None.
Proof.
  destruct (unset_rooms_are_not_saved MiniJSON.parse MiniJSON.stringify
              Demo.rooms_r1_r2 "r2" (Room None [3]))
    as (Hsaved & Htext & Hload).
  - vm_compute. reflexivity.
  - split_and!; [exact Hsaved|exact Htext|].
    apply Hload. vm_compute. reflexivity.
Defined.

(** The text written for [rooms_r1_r2], and what a restart loads from it. *)
Example saveStateToDisk_demo :
  Demo.saveStateToDisk Demo.rooms_r1_r2
  = "{" +:+ MiniJSON.quote "r1" +:+ ":{" +:+ MiniJSON.quote "x" +:+ ":1}}".
Proof. vm_compute. reflexivity. Qed.

Example load_db_demo :
  Demo.load_db (Some (Demo.saveStateToDisk Demo.rooms_r1_r2))
  = {[ "r1" := Room (Some Demo.value_x1) [] ]}.
Proof. vm_compute. reflexivity. Qed.

(** The scenario of the specification: connection 1 creates [r1] and is
    sent nothing, connection 2 joins and is sent [/state undefined], then
    the update of connection 1 reaches connection 2 only. *)
Example scenario :
  let s1 := Demo.on_message ∅ 1 "/room abc r1" in
  let s2 := Demo.on_message (res_rooms s1) 2 "/room abc r1" in
  let s3 := Demo.on_message (res_rooms s2) 1 ("/state r1 " +:+ Demo.payload_x1) in
  s1 = Result {[ "r1" := Room None [1] ]} [] Normal None
  ∧ res_sent s2 = [(2, "/state undefined")]
  ∧ res_sent s3 = [(2, "/state {" +:+ MiniJSON.quote "x" +:+ ":1}")]
  ∧ res_rooms s3 = {[ "r1" := Room (Some Demo.value_x1) [1; 2] ]}.
Proof. vm_compute. by repeat split. Qed.

(** C6. The update [/state __proto__ [1]] on the empty registry: the
    registry holds no room [__proto__], yet ['__proto__' in rooms] is true
    and the update is not dropped: the decoded value is assigned to
    [Object.prototype.state], and only then does [undefined.forEach] throw
    into the [catch]. The update of an unknown room is no no-op here. *)
Example update_inherited_name :
  Demo.on_message ∅ 1 "/state __proto__ [1]"
  = Result ∅ [] CaughtError (Some ("__proto__", JArr [JNum 1%Z])).
Proof. vm_compute. reflexivity. Qed.

(** * Further properties of the handler *)

(** No piece of [split] holds a space. *)
Lemma split_pieces_no_space s t : t ∈ split s → no_space t = true.
Proof.
  revert t. induction s as [|c s IH]; simpl; intros t Ht.
  - by apply list_elem_of_singleton in Ht as ->.
  - destruct (Ascii.eqb c " ") eqn:Ec.
    + apply elem_of_cons in Ht as [->|Ht]; [done|by apply IH].
    + destruct (split s) as [|t0 ts] eqn:E; [by apply split_not_nil in E|].
      apply elem_of_cons in Ht as [->|Ht]; simpl.
      * rewrite Ec. simpl. apply IH, list_elem_of_here.
      * by apply IH, list_elem_of_further.
Qed.

Lemma split_lookup_no_space s i t : split s !! i = Some t → no_space t = true.
Proof. intros Hi. eapply split_pieces_no_space, list_elem_of_lookup_2, Hi. Qed.

(** X25. The payload of an update is the rest of the frame: for a room id
    without a space, the second piece of [/state <rid> <payload>] is the
    room id, and the pieces from the third on, joined by spaces, are the
    payload as it was sent, whatever spaces it holds. *)
Theorem payload_is_the_rest_of_the_frame rid payload :
  no_space rid = true →
  let lineSplit := split ("/state " +:+ rid +:+ " " +:+ payload) in
  lineSplit !! 0 = Some "/state"
  ∧ lineSplit !! 1 = Some rid
  ∧ 2 < length lineSplit
  ∧ join (drop 2 lineSplit) = payload.
Proof.
  intros Hrid lineSplit. subst lineSplit.
  rewrite split_state_frame by done. simpl.
  split_and!; try done.
  - pose proof (split_not_nil payload). destruct (split payload); simpl; [done|lia].
  - by rewrite drop_0, join_split.
Qed.

Section HandlerMore.
Context {number : Type}.
Context {conn : Type} `{EqDecision conn}.
Variable JSON_parse : string → option (json number).
Variable JSON_stringify : json number → string.
Variable is_open : conn → bool.

#[local] Abbreviation room := (room number conn).
#[local] Abbreviation on_message :=
  (on_message JSON_parse JSON_stringify).

Implicit Types (rooms : gmap string room) (ws c : conn) (r : room).
Implicit Types (rid tok token payload data : string) (v : json number).

(** The handler on a frame whose first piece is not [/room], or whose
    pieces are not three: the first [if] is skipped. *)
Lemma on_message_not_room token rooms ws data :
  split data !! 0 ≠ Some "/room" ∨ length (split data) ≠ 3 →
  on_message token is_open rooms ws data =
  if bool_decide (split data !! 0 = Some "/state")
     && bool_decide (2 < length (split data)) then
    let roomId := default "" (split data !! 1) in
    if negb (js_in roomId rooms) then Result rooms [] Normal None
    else
      match JSON_parse (join (drop 2 (split data))) with
      | None => Result rooms [] CaughtError None
      | Some st =>
          match rooms !! roomId with
          | Some r =>
              Result (<[roomId := Room (Some st) (clients r)]> rooms)
                     (fan_out JSON_stringify is_open ws st (clients r))
                     Normal None
          | None => Result rooms [] CaughtError (Some (roomId, st))
          end
      end
  else Result rooms [] Normal None.
Proof.
  intros Hn. unfold_on_message. cbv zeta.
  destruct Hn as [Hn|Hn].
  - by rewrite (bool_decide_eq_false_2 (split data !! 0 = Some "/room")).
  - rewrite (bool_decide_eq_false_2 (length (split data) = 3)) by done.
    by rewrite andb_false_r.
Qed.


(** X2. The shared token is read on [/room] frames only: on any frame
    whose first piece is not [/room] the handler does the same whatever
    the token is; an update needs no token. *)
Theorem token_is_read_on_joins_only token1 token2 rooms ws data :
  split data !! 0 ≠ Some "/room" →
  on_message token1 is_open rooms ws data
  = on_message token2 is_open rooms ws data.
Proof.
  intros Hn. rewrite !on_message_not_room by by left. done.
Qed.

(** X3. The check of the [token] argument accepts exactly the tokens that
    a frame can present: when it throws, every frame whose first piece is
    [/room] is dropped, whatever the registry; when it passes, some [/room]
    frame has an effect. *)
Theorem check_token_accepts_usable_tokens token ws :
  (check_token token = None →
   ∀ rooms data, split data !! 0 = Some "/room" →
     on_message token is_open rooms ws data = Result rooms [] Normal None)
  ∧ (check_token token = Some true →
     ∃ data, split data !! 0 = Some "/room"
             ∧ on_message token is_open ∅ ws data ≠ Result ∅ [] Normal None).
Proof.
  unfold check_token. split.
  - destruct (no_space token) eqn:Htok; [done|]. intros _ rooms data H0.
    destruct (decide (length (split data) = 3)) as [H3|H3].
    + destruct (split data) as [|verb [|tok [|rid [|? ?]]]] eqn:Hs;
        simplify_eq/=.
      rewrite (on_message_room_tokens _ _ _ _ _ _ _ _ _ Hs).
      rewrite bool_decide_eq_true_2; [done|]. intros ->.
      assert (no_space token = true); [|congruence].
      apply (split_lookup_no_space data 1). by rewrite Hs.
    + rewrite on_message_not_room by by right.
      rewrite (bool_decide_eq_false_2 (split data !! 0 = Some "/state")); [done|].
      rewrite H0. by intros [=].
  - destruct (no_space token) eqn:Htok; [|done]. intros _.
    exists ("/room " +:+ token +:+ " " +:+ "r").
    pose proof (split_room_frame token "r" Htok eq_refl) as Hs.
    split; [by rewrite Hs|].
    rewrite (on_message_room_tokens _ _ _ _ _ _ _ _ _ Hs).
    rewrite bool_decide_eq_false_2 by (intros ?; congruence).
    intros Heq. apply (f_equal (λ res, res_rooms res !! "r")) in Heq.
    vm_compute in Heq. discriminate Heq.
Qed.

End HandlerMore.

Section HandlerEffects.
Context {number : Type}.
Context {conn : Type} `{EqDecision conn}.
Variable JSON_parse : string → option (json number).
Variable JSON_stringify : json number → string.
Variable token : string.
Variable is_open : conn → bool.

#[local] Abbreviation room := (room number conn).
#[local] Abbreviation on_message :=
  (on_message JSON_parse JSON_stringify token is_open).

Implicit Types (rooms : gmap string room) (ws c : conn) (r : room).
Implicit Types (rid tok payload data : string) (v : json number).

(** X4. A frame leaves every room as it is but the one it names, which is
    its third piece for a join and its second piece for an update. *)
Theorem other_rooms_are_untouched rooms ws data rid :
  (split data !! 0 = Some "/room" → split data !! 2 ≠ Some rid) →
  (split data !! 0 = Some "/state" → split data !! 1 ≠ Some rid) →
  res_rooms (on_message rooms ws data) !! rid = rooms !! rid.
Proof.
  intros Hjoin Hupdate.
  destruct (on_message_cases JSON_parse JSON_stringify token is_open rooms ws data)
    as [[-> _]|[(k & r0 & Hs & _ & ->)|[(k & Hs & _ & ->)|(k & rest & r0 & v & Hs & _ & _ & ->)]]];
    simpl; [done|..]; rewrite Hs in Hjoin, Hupdate; simpl in Hjoin, Hupdate;
    rewrite lookup_insert_ne; try done; intros ->.
  - by apply Hjoin.
  - by apply Hjoin.
  - by apply Hupdate.
Qed.

(** X5. A room whose id holds a space, which [db.json] can bring in, is
    out of reach of every frame: no join or update touches it. *)
Theorem room_id_with_space_is_unreachable rooms ws data rid :
  no_space rid = false →
  res_rooms (on_message rooms ws data) !! rid = rooms !! rid.
Proof.
  intros Hsp.
  assert (Hp : ∀ i, split data !! i ≠ Some rid).
  { intros i Hi. apply split_lookup_no_space in Hi. congruence. }
  destruct (on_message_cases JSON_parse JSON_stringify token is_open rooms ws data)
    as [[-> _]|[(k & r0 & Hs & _ & ->)|[(k & Hs & _ & ->)|(k & rest & r0 & v & Hs & _ & _ & ->)]]];
    simpl; [done|..]; rewrite lookup_insert_ne; try done; intros ->.
  - apply (Hp 2). by rewrite Hs.
  - apply (Hp 2). by rewrite Hs.
  - apply (Hp 1). by rewrite Hs.
Qed.

(** The texts that [c] is sent by a fan-out: one for each time [c] is
    listed, when [c] is open and not the sender. *)
Lemma received_fan_out ws v c (cl : list conn) :
  received c (fan_out JSON_stringify is_open ws v cl) =
  if decide (c ≠ ws ∧ is_open c = true)
  then replicate (length (filter (λ x, x = c) cl)) ("/state " +:+ JSON_stringify v)
  else [].
Proof.
  rewrite fan_out_filter.
  induction cl as [|x cl IH].
  - by destruct (decide _).
  - rewrite !filter_cons.
    destruct (decide (x ≠ ws ∧ is_open x = true)) as [Hx|Hx].
    + rewrite map_cons, received_cons, IH.
      destruct (decide (x = c)) as [->|Hne]; [|done].
      destruct (decide (c ≠ ws ∧ is_open c = true)); [done|tauto].
    + rewrite IH. destruct (decide (x = c)) as [->|Hne]; [|done].
      destruct (decide (c ≠ ws ∧ is_open c = true)); [tauto|done].
Qed.

(** X6. An update of a room whose member list has repetitions: a member
    that is open and not the sender is sent the frame once for each time
    it is listed. *)
Theorem update_fans_out_once_per_listing rooms ws rid payload r v c :
  no_space rid = true →
  rooms !! rid = Some r →
  JSON_parse payload = Some v →
  c ≠ ws →
  is_open c = true →
  received c (res_sent (on_message rooms ws ("/state " +:+ rid +:+ " " +:+ payload)))
  = replicate (length (filter (λ x, x = c) (clients r)))
              ("/state " +:+ JSON_stringify v).
Proof.
  intros Hrid Hr Hv Hc Ho.
  rewrite on_message_state_frame by done.
  rewrite (js_in_own _ _ _ Hr), Hv, Hr. simpl.
  by rewrite received_fan_out, decide_True.
Qed.

(** Where [Object.prototype] has its built-in properties, an exception
    leaves the handler exactly on a join with the shared token whose room
    id the registry does not hold and [Object.prototype] has as a property
    name. *)
Lemma on_message_throws_iff rooms ws data :
  res_end (on_message rooms ws data) = UncaughtError
  ↔ ∃ rid, split data = ["/room"; token; rid]
           ∧ rooms !! rid = None
           ∧ rid ∈ Object_prototype_names.
Proof.
  split.
  - intros Hend.
    destruct (decide (split data !! 0 = Some "/room" ∧ length (split data) = 3))
      as [[H0 H3]|Hn].
    + destruct (split data) as [|verb [|tok [|rid [|? ?]]]] eqn:Hs;
        simplify_eq/=.
      rewrite (on_message_room_tokens _ _ _ _ _ _ _ _ _ Hs) in Hend.
      case_bool_decide; [done|].
      destruct (rooms !! rid) as [r|] eqn:Hr.
      * by rewrite (js_in_own _ _ _ Hr) in Hend.
      * rewrite (js_in_not_own _ _ Hr) in Hend.
        case_bool_decide; [|done].
        exists rid. split_and!; try done.
        f_equal. f_equal. destruct (decide (tok = token)); [done|].
        by exfalso.
    + exfalso.
      assert (Hor : split data !! 0 ≠ Some "/room" ∨ length (split data) ≠ 3).
      { destruct (decide (split data !! 0 = Some "/room")); [right|by left].
        intros ?. by apply Hn. }
      rewrite (on_message_not_room _ _ _ _ _ _ _ Hor) in Hend.
      by repeat (case_match; simpl in Hend; try done).
  - intros (rid & Hs & Hr & Hin).
    rewrite (on_message_room_tokens _ _ _ _ _ _ _ _ _ Hs).
    rewrite bool_decide_eq_false_2 by (intros ?; congruence).
    by rewrite (js_in_not_own _ _ Hr), bool_decide_eq_true_2, Hr.
Qed.

End HandlerEffects.

Section HandlerComposition.
Context {number : Type}.
Context {conn : Type} `{EqDecision conn}.
Variable JSON_parse : string → option (json number).
Variable JSON_stringify : json number → string.
Variable token : string.
Variable is_open : conn → bool.

#[local] Abbreviation room := (room number conn).
#[local] Abbreviation on_message :=
  (on_message JSON_parse JSON_stringify token is_open).

Implicit Types (rooms : gmap string room) (ws c : conn) (r : room).
Implicit Types (rid tok payload data : string) (v : json number).

(** X8. Only a [/state] frame changes a state: after any frame whose first
    piece is not [/state], every room held before has the state it had,
    and a room that was not held before has no state. *)
Theorem states_change_on_updates_only rooms ws data rid r' :
  split data !! 0 ≠ Some "/state" →
  res_rooms (on_message rooms ws data) !! rid = Some r' →
  state r' = from_option state None (rooms !! rid).
Proof.
  intros H0 Hr'.
  destruct (on_message_cases JSON_parse JSON_stringify token is_open rooms ws data)
    as [[Heq _]|[(k & r0 & Hs & Hk & Heq)|[(k & Hs & Hk & Heq)|(k & rest & r0 & v & Hs & _ & _ & _)]]];
    [| | |by rewrite Hs in H0]; rewrite Heq in Hr'; simpl in Hr'.
  - by rewrite Hr'.
  - destruct (decide (k = rid)) as [->|Hne].
    + rewrite lookup_insert_eq in Hr'. simplify_eq. by rewrite Hk.
    + rewrite lookup_insert_ne in Hr' by done. by rewrite Hr'.
  - destruct (decide (k = rid)) as [->|Hne].
    + rewrite lookup_insert_eq in Hr'. simplify_eq. by rewrite Hk.
    + rewrite lookup_insert_ne in Hr' by done. by rewrite Hr'.
Qed.

(** X9. Only a [/room] frame creates a room or changes a member list:
    after any frame whose first piece is not [/room], the registry holds
    the same room ids, each with the member list it had. *)
Theorem members_change_on_joins_only rooms ws data rid :
  split data !! 0 ≠ Some "/room" →
  clients <$> res_rooms (on_message rooms ws data) !! rid
  = clients <$> rooms !! rid.
Proof.
  intros H0.
  destruct (on_message_cases JSON_parse JSON_stringify token is_open rooms ws data)
    as [[-> _]|[(k & r0 & Hs & _ & _)|[(k & Hs & _ & _)|(k & rest & r0 & v & Hs & Hk & _ & ->)]]];
    [done|by rewrite Hs in H0|by rewrite Hs in H0|]. simpl.
  destruct (decide (k = rid)) as [->|Hne].
  - by rewrite lookup_insert_eq, Hk.
  - by rewrite lookup_insert_ne.
Qed.


(** X11. The same update twice: the second leaves the registry as the
    first left it and sends the same frames again. *)
Theorem update_twice rooms ws rid payload r v :
  no_space rid = true →
  rooms !! rid = Some r →
  JSON_parse payload = Some v →
  let frame := "/state " +:+ rid +:+ " " +:+ payload in
  let once := on_message rooms ws frame in
  on_message (res_rooms once) ws frame = once.
Proof.
  intros Hrid Hr Hv frame once. subst once frame.
  rewrite (on_message_update _ _ _ _ _ _ _ _ _ _ Hrid Hr Hv). simpl.
  rewrite (on_message_update _ _ _ _ _ ws rid payload
             (Room (Some v) (clients r)) v Hrid); [|by rewrite lookup_insert_eq|done].
  simpl. by rewrite insert_insert_eq.
Qed.

(** X12. A join after an update: the connection that joins is sent the
    serialization of the value the update decoded, and is listed after the
    members the room had. *)
Theorem join_after_update rooms a c rid payload r v :
  no_space token = true →
  no_space rid = true →
  rooms !! rid = Some r →
  JSON_parse payload = Some v →
  let updated := res_rooms (on_message rooms a ("/state " +:+ rid +:+ " " +:+ payload)) in
  on_message updated c ("/room " +:+ token +:+ " " +:+ rid) =
  Result (<[rid := Room (Some v) (clients r ++ [c])]> rooms)
         [(c, "/state " +:+ JSON_stringify v)] Normal None.
Proof.
  intros Htok Hrid Hr Hv updated. subst updated.
  rewrite (on_message_update _ _ _ _ _ _ _ _ _ _ Hrid Hr Hv). simpl.
  rewrite (on_message_room_tokens _ _ _ _ _ _ _ token rid)
    by by apply split_room_frame.
  rewrite bool_decide_eq_false_2 by (intros ?; congruence).
  erewrite js_in_own by apply lookup_insert_eq.
  rewrite lookup_insert_eq. simpl. by rewrite insert_insert_eq.
Qed.

(** X13. A connection that joins a room twice is listed twice, and an
    update from another connection then sends it the frame twice. *)
Theorem join_twice_doubles_the_fan_out rooms a c rid payload r v :
  no_space token = true →
  no_space rid = true →
  rooms !! rid = Some r →
  JSON_parse payload = Some v →
  c ∉ clients r →
  c ≠ a →
  is_open c = true →
  let join := "/room " +:+ token +:+ " " +:+ rid in
  let joined := res_rooms (on_message (res_rooms (on_message rooms c join)) c join) in
  joined !! rid = Some (Room (state r) (clients r ++ [c; c]))
  ∧ received c (res_sent (on_message joined a ("/state " +:+ rid +:+ " " +:+ payload)))
    = ["/state " +:+ JSON_stringify v; "/state " +:+ JSON_stringify v].
Proof.
  intros Htok Hrid Hr Hv Hc Hca Ho join joined. subst joined join.
  pose proof (split_room_frame token rid Htok Hrid) as Hs.
  rewrite (on_message_room_tokens _ _ _ _ rooms c _ token rid Hs).
  rewrite bool_decide_eq_false_2 by (intros ?; congruence).
  rewrite (js_in_own _ _ _ Hr), Hr. simpl.
  rewrite (on_message_room_tokens _ _ _ _ _ c _ token rid Hs).
  rewrite bool_decide_eq_false_2 by (intros ?; congruence).
  erewrite js_in_own by apply lookup_insert_eq.
  rewrite lookup_insert_eq. simpl.
  rewrite insert_insert_eq, <- app_assoc. simpl.
  split; [by rewrite lookup_insert_eq|].
  rewrite on_message_state_frame by done.
  erewrite js_in_own by apply lookup_insert_eq.
  rewrite Hv, lookup_insert_eq. simpl.
  rewrite received_fan_out, decide_True by done.
  rewrite filter_app, length_app. simpl.
  rewrite !filter_cons, !decide_True by done. simpl.
  assert (Hnone : filter (λ x, x = c) (clients r) = []).
  { clear Hr. induction (clients r) as [|x cl IH]; [done|].
    apply not_elem_of_cons in Hc as [Hne Hc].
    rewrite filter_cons, decide_False by done. by apply IH. }
  by rewrite Hnone.
Qed.

End HandlerComposition.

(** * Further properties of the snapshot and of the start-up *)

#[local] Ltac unfold_startup := unfold startup.

Section SnapshotMore.
Context {number : Type}.
Context {conn : Type} `{EqDecision conn}.
Variable JSON_parse : string → option (json number).
Variable JSON_stringify : json number → string.
Variable token : string.
Variable is_open : conn → bool.

#[local] Abbreviation room := (room number conn).
#[local] Abbreviation on_message :=
  (on_message JSON_parse JSON_stringify token is_open).
#[local] Abbreviation saveStateToDisk :=
  (saveStateToDisk (conn := conn) JSON_stringify).
#[local] Abbreviation load_db := (load_db (conn := conn) JSON_parse).
#[local] Abbreviation startup :=
  (startup (conn := conn) JSON_parse JSON_stringify).

Implicit Types (rooms : gmap string room) (ws c : conn) (r : room).
Implicit Types (rid payload data text : string) (v : json number).

(** The rooms that [Object.fromEntries] builds from entries mapped by [f]
    are images of [f]. *)
Lemma Object_fromEntries_map_lookup {V W} (f : V → W)
    (entries : list (string * V)) k w :
  Object_fromEntries (map (λ kv, (kv.1, f kv.2)) entries) !! k = Some w →
  ∃ x, (k, x) ∈ entries ∧ w = f x.
Proof.
  unfold Object_fromEntries.
  rewrite Object_fromEntries_from, (right_id_L ∅ (∪)).
  intros Hk. apply elem_of_list_to_map_2 in Hk.
  rewrite elem_of_reverse in Hk.
  apply list_elem_of_fmap in Hk as ([k' x] & [= -> ->] & Hin).
  by exists x.
Qed.

(** X14. Whatever [db.json] holds, every room of the registry that the
    start-up loads has a state and no members. *)
Theorem loaded_rooms_have_a_state_and_no_members file rid r :
  load_db file !! rid = Some r →
  clients r = [] ∧ is_Some (state r).
Proof.
  unfold_load_db. intros Hr.
  destruct file as [text|]; [|by rewrite lookup_empty in Hr].
  destruct (JSON_parse text) as [v|]; [|by rewrite lookup_empty in Hr].
  destruct (Object_entries_json v) as [entries|];
    [|by rewrite lookup_empty in Hr].
  apply (Object_fromEntries_map_lookup (λ x, Room (Some x) [])) in Hr
    as (x & _ & ->).
  by eauto.
Qed.

(** The registry loaded from the text written for [rooms], where
    [JSON.parse] gives back the mapping that [JSON.stringify] was given. *)
Lemma load_db_saved rooms :
  JSON_parse (JSON_stringify (JObj (omap state rooms)))
    = Some (JObj (omap state rooms)) →
  load_db (Some (saveStateToDisk rooms))
  = (λ v, Room (Some v) []) <$> omap state rooms.
Proof.
  intros Hrt. rewrite saveStateToDisk_text.
  by apply (load_db_object JSON_parse).
Qed.

(** X15. A registry whose rooms all have a state and no members, as a
    loaded one has, is the registry loaded from the text written for it,
    where [JSON.parse] gives back the mapping that [JSON.stringify] was
    given. *)
Theorem save_then_load_is_identity rooms :
  JSON_parse (JSON_stringify (JObj (omap state rooms)))
    = Some (JObj (omap state rooms)) →
  (∀ rid r, rooms !! rid = Some r → clients r = [] ∧ is_Some (state r)) →
  load_db (Some (saveStateToDisk rooms)) = rooms.
Proof.
  intros Hrt Hall. rewrite (load_db_saved _ Hrt).
  apply map_eq. intros k. rewrite lookup_fmap, lookup_omap.
  destruct (rooms !! k) as [[st cl]|] eqn:Hk; [|done].
  destruct (Hall _ _ Hk) as [Hcl [x Hx]]. simpl in *. by subst.
Qed.

(** X16. A restart writes the text it loaded: the first
    [saveStateToDisk] after a load of the text written for [rooms] writes
    that text again, where [JSON.parse] gives back the mapping that
    [JSON.stringify] was given. *)
Theorem restart_rewrites_the_same_text rooms :
  JSON_parse (JSON_stringify (JObj (omap state rooms)))
    = Some (JObj (omap state rooms)) →
  (startup (Some (saveStateToDisk rooms))).2 = saveStateToDisk rooms.
Proof.
  intros Hrt. unfold_startup. cbv zeta. cbn [snd].
  rewrite (load_db_saved _ Hrt), !saveStateToDisk_text. do 2 f_equal.
  apply map_eq. intros k. rewrite !lookup_omap, lookup_fmap, lookup_omap.
  destruct (rooms !! k) as [[[x|] cl]|]; done.
Qed.

(** X17. A [db.json] that is missing, that does not decode, or that holds
    [null], a number or a boolean: the process starts with the empty
    registry and its first [saveStateToDisk] writes the text of the empty
    mapping over the file. *)
Theorem unusable_db_is_overwritten file :
  file = None
  ∨ (∃ text, file = Some text
       ∧ (JSON_parse text = None
          ∨ ∃ v, JSON_parse text = Some v
                 ∧ (v = JNull ∨ (∃ b, v = JBool b) ∨ (∃ n, v = JNum n)))) →
  startup file = (∅, JSON_stringify (JObj ∅)).
Proof.
  intros Hfile.
  assert (Hload : load_db file = ∅).
  { unfold_load_db.
    destruct Hfile as [->|(text & -> & [->|(v & -> & [->|[[b ->]|[n ->]]])])];
      done. }
  unfold_startup. cbv zeta. rewrite Hload, saveStateToDisk_text.
  by rewrite omap_empty.
Qed.

(** X18. Only an update changes what is written: after any frame whose
    first piece is not [/state], [saveStateToDisk] writes the text it would
    have written before. *)
Theorem snapshot_changes_on_updates_only rooms ws data :
  split data !! 0 ≠ Some "/state" →
  saveStateToDisk (res_rooms (on_message rooms ws data)) = saveStateToDisk rooms.
Proof.
  intros H0. rewrite !saveStateToDisk_text. do 2 f_equal.
  destruct (on_message_cases JSON_parse JSON_stringify token is_open rooms ws data)
    as [[-> _]|[(k & r0 & Hs & Hk & ->)|[(k & Hs & Hk & ->)|(k & rest & r0 & v & Hs & _ & _ & _)]]];
    [done| | |by rewrite Hs in H0]; simpl;
    apply map_eq; intros i; rewrite !lookup_omap;
    (destruct (decide (k = i)) as [->|Hne];
      [by rewrite lookup_insert_eq, Hk|by rewrite lookup_insert_ne]).
Qed.

(** X19. An update survives a restart: after the update of a room with a
    payload that decodes to [v], the registry loaded from the text that
    [saveStateToDisk] then writes holds the room with the state [v] and no
    members, where [JSON.parse] gives back the mapping that
    [JSON.stringify] was given. *)
Theorem update_survives_restart rooms ws rid payload r v :
  no_space rid = true →
  rooms !! rid = Some r →
  JSON_parse payload = Some v →
  let updated := res_rooms (on_message rooms ws ("/state " +:+ rid +:+ " " +:+ payload)) in
  JSON_parse (JSON_stringify (JObj (omap state updated)))
    = Some (JObj (omap state updated)) →
  load_db (Some (saveStateToDisk updated)) !! rid = Some (Room (Some v) []).
Proof.
  intros Hrid Hr Hv updated Hrt. rewrite (load_db_saved _ Hrt).
  subst updated.
  rewrite (on_message_update _ _ _ _ _ _ _ _ _ _ Hrid Hr Hv). simpl.
  by rewrite lookup_fmap, lookup_omap, lookup_insert_eq.
Qed.

End SnapshotMore.

Section LoadEdge.
Context {number : Type}.
Context {conn : Type}.
Variable JSON_parse : string → option (json number).

#[local] Abbreviation load_db := (load_db (conn := conn) JSON_parse).

(** X20. A [db.json] that holds an array: the registry loaded has one
    room for each element, named by the decimal index of the element, with
    the element as its state. *)
Theorem array_db_loads_rooms_named_by_index text (l : list (json number)) i x :
  JSON_parse text = Some (JArr l) →
  l !! i = Some x →
  load_db (Some text) !! pretty i = Some (Room (Some x) []).
Proof.
  intros Hp Hi. unfold_load_db. rewrite Hp. simpl.
  unfold Object_fromEntries.
  rewrite Object_fromEntries_from, (right_id_L ∅ (∪)).
  apply elem_of_list_to_map_1.
  - rewrite fmap_reverse, reverse_Permutation.
    assert (Hkeys :
      (map (λ kv : string * json number, (kv.1, Room (conn := conn) (Some kv.2) []))
           (imap (λ i x, (pretty i, x)) l)).*1
      = pretty <$> seq 0 (length l)).
    { rewrite <- imap_seq_0, <- list_fmap_compose, fmap_imap.
      by apply imap_ext. }
    rewrite Hkeys. apply NoDup_fmap_2; [apply _|apply NoDup_seq].
  - rewrite elem_of_reverse. apply list_elem_of_fmap.
    exists (pretty i, x). split; [done|].
    by apply (elem_of_lookup_imap_2 (λ i x, (pretty i, x))).
Qed.

End LoadEdge.

(** * Properties of a run of the process *)

#[local] Ltac unfold_run := unfold run.
#[local] Ltac unfold_deliver := unfold deliver.

Section Run.
Context {number : Type}.
Context {conn : Type} `{EqDecision conn}.
Variable JSON_parse : string → option (json number).
Variable JSON_stringify : json number → string.
Variable token : string.
Variable is_open : conn → bool.

#[local] Abbreviation room := (room number conn).
#[local] Abbreviation on_message :=
  (on_message JSON_parse JSON_stringify token is_open).
#[local] Abbreviation deliver :=
  (deliver JSON_parse JSON_stringify token is_open).
#[local] Abbreviation run := (run JSON_parse JSON_stringify token is_open).

Implicit Types (rooms : gmap string room) (ws c : conn) (r : room).
Implicit Types (rid data text : string) (p : process number conn).
Implicit Types (e : conn * string) (events : list (conn * string)).

Lemma run_snoc rooms events e :
  run rooms (events ++ [e]) = deliver (run rooms events) e.
Proof. unfold_run. by rewrite foldl_snoc. Qed.

(** One delivery: the process is as it was, or the handler ran on a
    process that was up. *)
Lemma deliver_cases p e :
  deliver p e = p
  ∨ (proc_status p = Up
     ∧ proc_rooms (deliver p e) = res_rooms (on_message (proc_rooms p) e.1 e.2)
     ∧ proc_sent (deliver p e)
       = proc_sent p ++ res_sent (on_message (proc_rooms p) e.1 e.2)
     ∧ (proc_status (deliver p e) = Exited
        ↔ res_end (on_message (proc_rooms p) e.1 e.2) = UncaughtError)).
Proof.
  unfold_deliver. destruct (proc_status p) eqn:Hst; [right|by left..].
  split_and!; try done. simpl.
  destruct (res_end (on_message (proc_rooms p) e.1 e.2));
    destruct (res_stray (on_message (proc_rooms p) e.1 e.2)) as [[k ?]|];
    try case_bool_decide; naive_solver.
Qed.

(** The members of a room after one invocation of the handler: those it
    had, or those and the sender on a join of that room. *)
Lemma on_message_members rooms ws data rid r' c :
  res_rooms (on_message rooms ws data) !! rid = Some r' →
  c ∈ clients r' →
  (∃ r, rooms !! rid = Some r ∧ c ∈ clients r)
  ∨ (c = ws ∧ split data = ["/room"; token; rid]).
Proof.
  intros Hr' Hc.
  destruct (on_message_cases JSON_parse JSON_stringify token is_open rooms ws data)
    as [[Heq _]|[(k & r0 & Hs & Hk & Heq)|[(k & Hs & Hk & Heq)|(k & rest & r0 & v & Hs & Hk & _ & Heq)]]];
    rewrite Heq in Hr'; simpl in Hr'.
  - left. by exists r'.
  - destruct (decide (k = rid)) as [->|Hne].
    + rewrite lookup_insert_eq in Hr'. simplify_eq. simpl in Hc.
      apply elem_of_app in Hc as [Hc|Hc]; [left; by exists r0|].
      apply list_elem_of_singleton in Hc as ->. by right.
    + rewrite lookup_insert_ne in Hr' by done. left. by exists r'.
  - destruct (decide (k = rid)) as [->|Hne].
    + rewrite lookup_insert_eq in Hr'. simplify_eq. simpl in Hc.
      apply list_elem_of_singleton in Hc as ->. by right.
    + rewrite lookup_insert_ne in Hr' by done. left. by exists r'.
  - destruct (decide (k = rid)) as [->|Hne].
    + rewrite lookup_insert_eq in Hr'. simplify_eq. left. by exists r0.
    + rewrite lookup_insert_ne in Hr' by done. left. by exists r'.
Qed.

(** The members of a room after a run: those it had at the start, or
    connections that sent a join of that room with the shared token. *)
Lemma run_members rooms events rid r' c :
  proc_rooms (run rooms events) !! rid = Some r' →
  c ∈ clients r' →
  (∃ r, rooms !! rid = Some r ∧ c ∈ clients r)
  ∨ (∃ data, (c, data) ∈ events ∧ split data = ["/room"; token; rid]).
Proof.
  revert r'. induction events as [|e events IH] using rev_ind; intros r' Hr' Hc.
  - left. by exists r'.
  - rewrite run_snoc in Hr'.
    destruct (deliver_cases (run rooms events) e) as [Heq|(_ & Hrooms & _)].
    + rewrite Heq in Hr'. destruct (IH _ Hr' Hc) as [?|(data & Hin & Hs)]; [by left|].
      right. exists data. split; [|done]. apply elem_of_app. by left.
    + rewrite Hrooms in Hr'.
      destruct (on_message_members _ _ _ _ _ _ Hr' Hc)
        as [(r & Hr & Hcr)|[-> Hs]].
      * destruct (IH _ Hr Hcr) as [?|(data & Hin & Hs)]; [by left|].
        right. exists data. split; [|done]. apply elem_of_app. by left.
      * right. exists e.2. split; [|done]. apply elem_of_app. right.
        destruct e. by apply list_elem_of_singleton.
Qed.

(** X21. Membership is by join only: from a registry whose rooms have no
    members, as a loaded one, after any frames each member of a room is a
    connection that sent a join of that room with the shared token. *)
Theorem members_have_joined rooms events rid r c :
  (∀ k r0, rooms !! k = Some r0 → clients r0 = []) →
  proc_rooms (run rooms events) !! rid = Some r →
  c ∈ clients r →
  ∃ data, (c, data) ∈ events ∧ split data = ["/room"; token; rid].
Proof.
  intros Hempty Hr Hc.
  destruct (run_members _ _ _ _ _ Hr Hc) as [(r0 & Hr0 & Hc0)|?]; [|done].
  rewrite (Hempty _ _ Hr0) in Hc0. by apply elem_of_nil in Hc0.
Qed.

(** X22. No frame goes to a connection that has not sent a join with the
    shared token: from a registry whose rooms have no members, every frame
    sent in a run goes to a connection that sent such a join in the run. *)
Theorem frames_go_to_joined_connections rooms events c text :
  (∀ k r0, rooms !! k = Some r0 → clients r0 = []) →
  (c, text) ∈ proc_sent (run rooms events) →
  ∃ data rid, (c, data) ∈ events ∧ split data = ["/room"; token; rid].
Proof.
  intros Hempty.
  induction events as [|e events IH] using rev_ind; intros Hin.
  - by apply elem_of_nil in Hin.
  - assert (Hold : (c, text) ∈ proc_sent (run rooms events) →
      ∃ data rid, (c, data) ∈ events ++ [e] ∧ split data = ["/room"; token; rid]).
    { intros Hin'. destruct (IH Hin') as (data & rid & Hd & Hs).
      exists data, rid. split; [|done]. apply elem_of_app. by left. }
    rewrite run_snoc in Hin.
    destruct (deliver_cases (run rooms events) e) as [Heq|(_ & _ & Hsent & _)].
    { rewrite Heq in Hin. by apply Hold. }
    rewrite Hsent in Hin. apply elem_of_app in Hin as [Hin|Hin]; [by apply Hold|].
    destruct (on_message_cases JSON_parse JSON_stringify token is_open
                (proc_rooms (run rooms events)) e.1 e.2)
      as [[_ Heq]|[(k & r0 & Hs & Hk & Heq)|[(k & Hs & Hk & Heq)|(k & rest & r0 & v & Hs & Hk & _ & Heq)]]];
      rewrite Heq in Hin; simpl in Hin.
    + by apply elem_of_nil in Hin.
    + apply list_elem_of_singleton in Hin. simplify_eq.
      exists e.2, k. split; [|done]. apply elem_of_app. right.
      destruct e. by apply list_elem_of_singleton.
    + by apply elem_of_nil in Hin.
    + rewrite fan_out_filter in Hin.
      apply list_elem_of_fmap in Hin as (x & [= -> ->] & Hx).
      apply list_elem_of_filter in Hx as [_ Hx].
      destruct (run_members _ _ _ _ _ Hk Hx)
        as [(r1 & Hr1 & Hc1)|(data & Hd & Hsd)].
      * rewrite (Hempty _ _ Hr1) in Hc1. by apply elem_of_nil in Hc1.
      * exists data, k. split; [|done]. apply elem_of_app. by left.
Qed.

(** A room held before one invocation of the handler is held after it,
    with a member list that the former one begins. *)
Lemma on_message_prefix rooms ws data rid r :
  rooms !! rid = Some r →
  ∃ r', res_rooms (on_message rooms ws data) !! rid = Some r'
        ∧ clients r `prefix_of` clients r'.
Proof.
  intros Hr.
  destruct (on_message_cases JSON_parse JSON_stringify token is_open rooms ws data)
    as [[-> _]|[(k & r0 & _ & Hk & ->)|[(k & _ & Hk & ->)|(k & rest & r0 & v & _ & Hk & _ & ->)]]];
    simpl; [by exists r|..];
    (destruct (decide (k = rid)) as [->|Hne];
      [rewrite lookup_insert_eq; simplify_eq
      |rewrite lookup_insert_ne by done; by exists r]).
  - eexists. split; [done|]. by apply prefix_app_r.
  - by eexists.
Qed.

(** X23. Over a run, which follows the process until it exits or an
    update assigns [Object.prototype.state], no room is lost and no member
    is removed or moved: a room of the starting registry is held at the end
    of the run, and the member list it had begins the one it has. *)
Theorem run_keeps_rooms_and_members rooms events rid r :
  rooms !! rid = Some r →
  ∃ r', proc_rooms (run rooms events) !! rid = Some r'
        ∧ clients r `prefix_of` clients r'.
Proof.
  intros Hr. induction events as [|e events IH] using rev_ind.
  - by exists r.
  - destruct IH as (r1 & Hr1 & Hpre). rewrite run_snoc.
    destruct (deliver_cases (run rooms events) e) as [->|(_ & -> & _)].
    + by exists r1.
    + destruct (on_message_prefix _ e.1 e.2 _ _ Hr1) as (r2 & Hr2 & Hpre2).
      exists r2. split; [done|]. by etrans.
Qed.

End Run.

(** * Properties of the process through assignments of [Object.prototype.state] *)

#[local] Ltac unfold_on_message_under := unfold on_message_under.
#[local] Ltac unfold_join_inherited_state := unfold join_inherited_state.
#[local] Ltac unfold_update_inherited_state := unfold update_inherited_state.
#[local] Ltac unfold_serve := unfold serve.
#[local] Ltac unfold_serve_frame := unfold serve_frame.

Section Serve.
Context {number : Type}.
Context {conn : Type} `{EqDecision conn}.
Variable JSON_parse : string → option (json number).
Variable JSON_stringify : json number → string.
Variable token : string.
Variable is_open : conn → bool.
Variable is_OPEN : number → bool.
Variable JSON_stringify_live : json number → list conn → option string.

#[local] Abbreviation room := (room number conn).
#[local] Abbreviation phantom := (phantom number conn).
#[local] Abbreviation on_message :=
  (on_message JSON_parse JSON_stringify token is_open).
#[local] Abbreviation join_inherited_state :=
  (join_inherited_state JSON_stringify JSON_stringify_live).
#[local] Abbreviation update_inherited_state :=
  (update_inherited_state JSON_parse JSON_stringify is_open is_OPEN).
#[local] Abbreviation on_message_under :=
  (on_message_under JSON_parse JSON_stringify token is_open is_OPEN
     JSON_stringify_live).
#[local] Abbreviation serve_frame :=
  (serve_frame JSON_parse JSON_stringify token is_open is_OPEN
     JSON_stringify_live).
#[local] Abbreviation serve :=
  (serve JSON_parse JSON_stringify token is_open is_OPEN JSON_stringify_live).

Implicit Types (rooms : gmap string room) (ws c : conn) (r : room).
Implicit Types (rid data text payload : string) (ph : phantom).
Implicit Types (proto : option phantom) (s : server number conn).
Implicit Types (e : conn * string) (events : list (conn * string)).

(** An assignment that lands on an inherited object comes from a [/state]
    frame whose second piece is the name. *)
Lemma on_message_stray rooms ws data k v :
  res_stray (on_message rooms ws data) = Some (k, v) →
  ∃ rest, split data = "/state" :: k :: rest.
Proof.
  intros Hst.
  destruct (decide (split data !! 0 = Some "/room" ∧ length (split data) = 3))
    as [[H0 H3]|Hn].
  - destruct (split data) as [|verb [|tok [|rid [|? ?]]]] eqn:Hs;
      simplify_eq/=.
    rewrite (on_message_room_tokens _ _ _ _ _ _ _ _ _ Hs) in Hst.
    by repeat (case_match; simpl in Hst; try done).
  - assert (Hor : split data !! 0 ≠ Some "/room" ∨ length (split data) ≠ 3).
    { destruct (decide (split data !! 0 = Some "/room")); [right|by left].
      intros ?. by apply Hn. }
    rewrite (on_message_not_room _ _ _ _ _ _ _ Hor) in Hst.
    destruct (bool_decide (split data !! 0 = Some "/state")
              && bool_decide (2 < length (split data))) eqn:Hg; [|done].
    apply andb_prop in Hg as [H0 H2].
    apply bool_decide_eq_true_1 in H0, H2.
    destruct (split data) as [|verb [|rid rest]] eqn:Hs;
      simpl in H2; try lia. simplify_eq/=.
    exists rest.
    repeat (case_match; simpl in Hst; try done). by simplify_eq.
Qed.

(** The three ways of the handler: the one of [on_message], the join of
    the inherited [state], the update of the inherited [state]. *)
Lemma on_message_under_cases proto rooms ws data :
  on_message_under proto rooms ws data
  = (on_message rooms ws data,
     match res_stray (on_message rooms ws data) with
     | Some (k, v) =>
         if bool_decide (k = "__proto__") then Some (Phantom v []) else proto
     | None => proto
     end)
  ∨ (∃ ph, proto = Some ph ∧ rooms !! "state" = None
       ∧ split data = ["/room"; token; "state"]
       ∧ on_message_under proto rooms ws data = join_inherited_state ph rooms ws)
  ∨ (∃ ph rest, proto = Some ph ∧ rooms !! "state" = None
       ∧ split data = "/state" :: "state" :: rest
       ∧ on_message_under proto rooms ws data
         = update_inherited_state ph rooms ws (join (drop 2 (split data)))).
Proof.
  unfold_on_message_under. cbv zeta.
  destruct proto as [ph|]; [|by left].
  case_bool_decide as Hown; [by left|].
  assert (rooms !! "state" = None) as Hnone.
  { destruct (rooms !! "state") eqn:E; [|done]. destruct Hown. by eexists. }
  case_bool_decide as Hjoin; [right; left; by exists ph|].
  destruct (bool_decide (split data !! 0 = Some "/state")
            && bool_decide (2 < length (split data))
            && bool_decide (split data !! 1 = Some "state")) eqn:Hup;
    [|by left].
  right; right.
  apply andb_prop in Hup as [Hup H1]. apply andb_prop in Hup as [H0 H2].
  apply bool_decide_eq_true_1 in H0, H1, H2.
  destruct (split data) as [|verb [|rid rest]] eqn:Hs; simplify_eq/=.
  by exists ph, rest.
Qed.

Lemma join_inherited_state_result ph rooms ws :
  res_rooms (join_inherited_state ph rooms ws).1 = rooms
  ∧ ∀ c text, (c, text) ∈ res_sent (join_inherited_state ph rooms ws).1 → c = ws.
Proof.
  split.
  - unfold_join_inherited_state. by repeat case_match.
  - intros c text. unfold_join_inherited_state.
    repeat case_match; simpl; intros Hin;
      try (by apply elem_of_nil in Hin);
      apply list_elem_of_singleton in Hin; by simplify_eq.
Qed.

Lemma update_inherited_state_result ph rooms ws payload :
  res_rooms (update_inherited_state ph rooms ws payload).1 = rooms
  ∧ res_end (update_inherited_state ph rooms ws payload).1 ≠ UncaughtError
  ∧ ∀ c text, (c, text) ∈ res_sent (update_inherited_state ph rooms ws payload).1 →
              c ∈ ph_pushed ph.
Proof.
  split_and!.
  - unfold_update_inherited_state. by repeat case_match.
  - unfold_update_inherited_state. by repeat case_match.
  - intros c text. unfold_update_inherited_state.
    repeat case_match; simpl; intros Hin;
      try (by apply elem_of_nil in Hin).
    rewrite fan_out_filter in Hin.
    apply list_elem_of_fmap in Hin as (x & [= -> ->] & Hx).
    by apply list_elem_of_filter in Hx as [_ Hx].
Qed.

(** X7. An exception leaves the handler exactly on a join with the shared
    token whose room id the registry does not hold and that is either a
    property name that [Object.prototype] has of itself, or [state] where
    [Object.prototype.state] has been assigned a value on which the [push]
    or the serialization throws. *)
Theorem handler_throws_iff proto rooms ws data :
  res_end (on_message_under proto rooms ws data).1 = UncaughtError
  ↔ ∃ rid, split data = ["/room"; token; rid]
           ∧ rooms !! rid = None
           ∧ (rid ∈ Object_prototype_names
              ∨ (rid = "state"
                 ∧ ∃ ph, proto = Some ph
                   ∧ ∀ m l, ph_value ph = JObj m →
                            m !! "clients" = Some (JArr l) →
                            m !! "state" = None
                            ∧ JSON_stringify_live (JObj m) (ph_pushed ph ++ [ws])
                              = None)).
Proof.
  assert (Hjoin : ∀ ph,
    res_end (join_inherited_state ph rooms ws).1 = UncaughtError
    ↔ ∀ m l, ph_value ph = JObj m → m !! "clients" = Some (JArr l) →
             m !! "state" = None
             ∧ JSON_stringify_live (JObj m) (ph_pushed ph ++ [ws]) = None).
  { intros ph. unfold_join_inherited_state.
    destruct (ph_value ph) as [| | | | |m];
      try (split; [by intros _ ? ? ? ?|done]).
    destruct (m !! "clients") as [[| | | |l|]|] eqn:Hc;
      try (split; [intros _ ? ? ? ?; congruence|done]).
    destruct (m !! "state") as [st|] eqn:Hst; simpl.
    - split; [intros [=]|]. intros Hall.
      destruct (Hall m l eq_refl Hc). congruence.
    - destruct (JSON_stringify_live (JObj m) (ph_pushed ph ++ [ws])) eqn:Hl;
        simpl.
      + split; [intros [=]|]. intros Hall.
        destruct (Hall m l eq_refl Hc). congruence.
      + split; [|done]. by intros _ m' l' [= <-] _. }
  assert (Hstate : "state" ∉ Object_prototype_names).
  { apply (bool_decide_unpack _). vm_compute. exact I. }
  destruct (on_message_under_cases proto rooms ws data)
    as [Heq|[(ph & -> & Hnone & Hs & Heq)|(ph & rest & -> & Hnone & Hs & Heq)]].
  - rewrite Heq. cbn [fst]. rewrite on_message_throws_iff. split.
    + intros (rid & Hs & Hr & Hin). exists rid. by eauto.
    + intros (rid & Hs & Hr & [Hin|(-> & ph & -> & Hall)]); [by exists rid|].
      exfalso. revert Heq. unfold_on_message_under. cbv zeta.
      rewrite bool_decide_eq_false_2 by (rewrite Hr; by intros [? ?]).
      rewrite bool_decide_eq_true_2 by done. intros Heq.
      apply (f_equal (λ x, res_end x.1)) in Heq. cbn [fst] in Heq.
      rewrite (proj2 (Hjoin ph) Hall) in Heq.
      symmetry in Heq. apply on_message_throws_iff in Heq
        as (rid & Hs' & _ & Hin).
      rewrite Hs in Hs'. by simplify_eq.
  - rewrite Heq, Hjoin. split.
    + intros Hall. exists "state". split_and!; try done. right. by eauto.
    + intros (rid & Hs' & _ & [Hin|(_ & ph' & [= <-] & Hall)]); [|done].
      rewrite Hs in Hs'. by simplify_eq.
  - rewrite Heq. split.
    + intros Hend. by apply update_inherited_state_result in Hend.
    + intros (rid & Hs' & _). rewrite Hs in Hs'. by simplify_eq.
Qed.

(** *** One invocation *)

Lemma on_message_under_members proto rooms ws data rid r' c :
  res_rooms (on_message_under proto rooms ws data).1 !! rid = Some r' →
  c ∈ clients r' →
  (∃ r, rooms !! rid = Some r ∧ c ∈ clients r)
  ∨ (c = ws ∧ split data = ["/room"; token; rid]).
Proof.
  intros Hr' Hc.
  destruct (on_message_under_cases proto rooms ws data)
    as [Heq|[(ph & _ & _ & _ & Heq)|(ph & rest & _ & _ & _ & Heq)]];
    rewrite Heq in Hr'.
  - by apply (on_message_members JSON_parse JSON_stringify token is_open
                rooms ws data rid r' c).
  - rewrite (proj1 (join_inherited_state_result _ _ _)) in Hr'.
    left. by exists r'.
  - rewrite (proj1 (update_inherited_state_result _ _ _ _)) in Hr'.
    left. by exists r'.
Qed.

Lemma on_message_under_prefix proto rooms ws data rid r :
  rooms !! rid = Some r →
  ∃ r', res_rooms (on_message_under proto rooms ws data).1 !! rid = Some r'
        ∧ clients r `prefix_of` clients r'.
Proof.
  intros Hr.
  destruct (on_message_under_cases proto rooms ws data)
    as [Heq|[(ph & _ & _ & _ & Heq)|(ph & rest & _ & _ & _ & Heq)]];
    rewrite Heq.
  - by apply on_message_prefix.
  - rewrite (proj1 (join_inherited_state_result _ _ _)). by exists r.
  - rewrite (proj1 (update_inherited_state_result _ _ _ _)). by exists r.
Qed.

(** The WebSocket objects on the inherited value after one invocation:
    those that were on it, or the sender of a join of [state]. *)
Lemma on_message_under_pushed proto rooms ws data ph' c :
  (on_message_under proto rooms ws data).2 = Some ph' →
  c ∈ ph_pushed ph' →
  (∃ ph, proto = Some ph ∧ c ∈ ph_pushed ph)
  ∨ (c = ws ∧ split data = ["/room"; token; "state"]).
Proof.
  intros Hph Hc.
  destruct (on_message_under_cases proto rooms ws data)
    as [Heq|[(ph & -> & _ & Hs & Heq)|(ph & rest & -> & _ & _ & Heq)]];
    rewrite Heq in Hph; revert Hph.
  - cbn [snd]. destruct (res_stray _) as [[k v]|]; [|by eauto].
    case_bool_decide; [|by eauto]. intros [= <-]. simpl in Hc.
    by apply elem_of_nil in Hc.
  - unfold_join_inherited_state.
    repeat case_match; simpl; intros; simplify_eq/=;
      try (left; by eauto);
      (apply elem_of_app in Hc as [Hc|Hc]; [left; by eauto|]);
      apply list_elem_of_singleton in Hc; by right.
  - unfold_update_inherited_state.
    repeat case_match; simpl; intros; simplify_eq/=; left; by eauto.
Qed.

(** [Object.prototype.state] is assigned by an update of the room id
    [__proto__] only. *)
Lemma on_message_under_assigned proto rooms ws data ph' :
  (on_message_under proto rooms ws data).2 = Some ph' →
  is_Some proto ∨ ∃ rest, split data = "/state" :: "__proto__" :: rest.
Proof.
  intros Hph.
  destruct (on_message_under_cases proto rooms ws data)
    as [Heq|[(ph & -> & _)|(ph & rest & -> & _)]]; [|by left..].
  rewrite Heq in Hph. revert Hph. cbn [snd].
  destruct (res_stray _) as [[k v]|] eqn:Hst; [|intros ->; by left].
  case_bool_decide as Hk; [|intros ->; by left]. subst k. intros _. right.
  by apply on_message_stray in Hst.
Qed.

(** Who is sent a frame by one invocation: the sender of a join with the
    shared token, a member of a room of the registry, or a WebSocket object
    on the inherited value. *)
Lemma on_message_under_sent proto rooms ws data c text :
  (c, text) ∈ res_sent (on_message_under proto rooms ws data).1 →
  (c = ws ∧ ∃ rid, split data = ["/room"; token; rid])
  ∨ (∃ rid r, rooms !! rid = Some r ∧ c ∈ clients r)
  ∨ (∃ ph, proto = Some ph ∧ c ∈ ph_pushed ph).
Proof.
  intros Hin.
  destruct (on_message_under_cases proto rooms ws data)
    as [Heq|[(ph & -> & _ & Hs & Heq)|(ph & rest & -> & _ & _ & Heq)]];
    rewrite Heq in Hin.
  - cbn [fst] in Hin.
    destruct (on_message_cases JSON_parse JSON_stringify token is_open rooms ws data)
      as [[_ Hs]|[(k & r0 & Hs & Hk & Hr)|[(k & Hs & Hk & Hr)|(k & rest & r0 & v & Hs & Hk & _ & Hr)]]];
      rewrite ?Hs, ?Hr in Hin; simpl in Hin.
    + by apply elem_of_nil in Hin.
    + apply list_elem_of_singleton in Hin. simplify_eq. left. by eauto.
    + by apply elem_of_nil in Hin.
    + rewrite fan_out_filter in Hin.
      apply list_elem_of_fmap in Hin as (x & [= -> ->] & Hx).
      apply list_elem_of_filter in Hx as [_ Hx]. right; left. by eauto.
  - apply join_inherited_state_result in Hin as ->. left. by eauto.
  - apply update_inherited_state_result in Hin. right; right. by eauto.
Qed.

(** An exception leaves the handler only on a join with the shared token
    that names a property of [Object.prototype]: one it has of itself, or
    [state] once assigned. *)
Lemma on_message_under_throws proto rooms ws data :
  res_end (on_message_under proto rooms ws data).1 = UncaughtError →
  ∃ rid, split data = ["/room"; token; rid]
         ∧ (rid ∈ Object_prototype_names ∨ (rid = "state" ∧ is_Some proto)).
Proof.
  intros Hend.
  destruct (on_message_under_cases proto rooms ws data)
    as [Heq|[(ph & -> & _ & Hs & Heq)|(ph & rest & -> & _ & _ & Heq)]];
    rewrite Heq in Hend.
  - cbn [fst] in Hend. apply on_message_throws_iff in Hend
      as (rid & Hs & _ & Hin). exists rid. by eauto.
  - exists "state". split; [done|]. right. by eauto.
  - by apply update_inherited_state_result in Hend.
Qed.

(** *** A run through the assignments *)

Lemma serve_snoc rooms events e :
  serve rooms (events ++ [e]) = serve_frame (serve rooms events) e.
Proof. unfold_serve. by rewrite foldl_snoc. Qed.

Lemma serve_frame_cases s e :
  serve_frame s e = s
  ∨ (srv_exited s = false
     ∧ srv_rooms (serve_frame s e)
       = res_rooms (on_message_under (srv_proto s) (srv_rooms s) e.1 e.2).1
     ∧ srv_sent (serve_frame s e)
       = srv_sent s ++ res_sent (on_message_under (srv_proto s) (srv_rooms s) e.1 e.2).1
     ∧ srv_proto (serve_frame s e)
       = (on_message_under (srv_proto s) (srv_rooms s) e.1 e.2).2
     ∧ (srv_exited (serve_frame s e) = true
        → res_end (on_message_under (srv_proto s) (srv_rooms s) e.1 e.2).1
          = UncaughtError)).
Proof.
  unfold_serve_frame. destruct (srv_exited s) eqn:Hex; [by left|right].
  split_and!; try done. simpl. by case_match.
Qed.

#[local] Abbreviation joined events c rid :=
  (∃ data, (c, data) ∈ events ∧ split data = ["/room"; token; rid]).
#[local] Abbreviation assigned events :=
  (∃ c data rest, (c, data) ∈ events
                  ∧ split data = "/state" :: "__proto__" :: rest).

(** What holds after every run: the members of a room were members at the
    start or have joined it; the WebSocket objects on the inherited value
    have joined [state]; the inherited value comes from an update of
    [__proto__]. *)
Lemma serve_invariant rooms events :
  (∀ rid r c, srv_rooms (serve rooms events) !! rid = Some r → c ∈ clients r →
     (∃ r0, rooms !! rid = Some r0 ∧ c ∈ clients r0) ∨ joined events c rid)
  ∧ (∀ ph c, srv_proto (serve rooms events) = Some ph → c ∈ ph_pushed ph →
       joined events c "state")
  ∧ (∀ ph, srv_proto (serve rooms events) = Some ph → assigned events).
Proof.
  induction events as [|e events (IHr & IHp & IHa)] using rev_ind.
  - split_and!; [|done..]. intros rid r c Hr Hc. left. by exists r.
  - assert (Hj : ∀ c rid, joined events c rid → joined (events ++ [e]) c rid).
    { intros c rid (data & Hin & Hs). exists data. split; [|done].
      apply elem_of_app. by left. }
    assert (Ha : assigned events → assigned (events ++ [e])).
    { intros (c & data & rest & Hin & Hs). exists c, data, rest.
      split; [|done]. apply elem_of_app. by left. }
    assert (He : ∀ c data, c = e.1 → data = e.2 → (c, data) ∈ events ++ [e]).
    { intros c data -> ->. apply elem_of_app. right. destruct e.
      by apply list_elem_of_singleton. }
    rewrite serve_snoc.
    destruct (serve_frame_cases (serve rooms events) e)
      as [->|(_ & Hrooms & _ & Hproto & _)].
    { split_and!.
      - intros rid r c Hr Hc. destruct (IHr _ _ _ Hr Hc); by eauto.
      - intros ph c Hph Hc. by eauto.
      - intros ph Hph. by eauto. }
    rewrite Hrooms, Hproto. split_and!.
    + intros rid r c Hr Hc.
      destruct (on_message_under_members _ _ _ _ _ _ _ Hr Hc)
        as [(r1 & Hr1 & Hc1)|[-> Hs]].
      * destruct (IHr _ _ _ Hr1 Hc1); by eauto.
      * right. exists e.2. by eauto.
    + intros ph c Hph Hc.
      destruct (on_message_under_pushed _ _ _ _ _ _ Hph Hc)
        as [(ph0 & Hph0 & Hc0)|[-> Hs]]; [by eauto|].
      exists e.2. by eauto.
    + intros ph Hph.
      destruct (on_message_under_assigned _ _ _ _ _ Hph)
        as [[ph0 Hph0]|[rest Hs]]; [by eauto|].
      exists e.1, e.2, rest. by eauto.
Qed.

(** [run] is [serve] up to the first assignment of
    [Object.prototype.state]: a run that does not end [Tainted] gives the
    registry, the frames and the exit of the process. *)
Lemma run_serve rooms events :
  proc_status (run JSON_parse JSON_stringify token is_open rooms events) ≠ Tainted →
  let p := run JSON_parse JSON_stringify token is_open rooms events in
  let s := serve rooms events in
  srv_rooms s = proc_rooms p ∧ srv_sent s = proc_sent p ∧ srv_proto s = None
  ∧ srv_exited s = match proc_status p with Exited => true | _ => false end.
Proof.
  cbv zeta. induction events as [|e events IH] using rev_ind; [done|].
  rewrite serve_snoc, (run_snoc JSON_parse JSON_stringify token is_open).
  revert IH. generalize (run JSON_parse JSON_stringify token is_open rooms events).
  generalize (serve rooms events). intros s p IH.
  unfold_deliver. unfold_serve_frame.
  destruct (proc_status p) eqn:Hst; simpl.
  - destruct IH as (Hr & Hs & Hp & He); [done|].
    rewrite He, Hr, Hs, Hp. simpl.
    destruct (res_end (on_message (proc_rooms p) e.1 e.2)) eqn:Hend;
      destruct (res_stray (on_message (proc_rooms p) e.1 e.2)) as [[k v]|]
        eqn:Hstray;
      simpl; try case_bool_decide; simpl; try done.
    all: intros _; exfalso.
    all: apply (on_message_throws_iff JSON_parse JSON_stringify token is_open)
           in Hend as (rid & Hsplit & _).
    all: apply on_message_stray in Hstray as (rest & Hsplit').
    all: by rewrite Hsplit in Hsplit'.
  - intros _. destruct IH as (Hr & Hs & Hp & He); [done|].
    by rewrite He, ?Hst.
  - intros Hn. by rewrite ?Hst in Hn.
Qed.

(** X27. Over any sequence of delivered frames, also after an update has
    assigned [Object.prototype.state], no room is lost and no member is
    removed or moved: a room of the starting registry is held when the run
    ends, by exit or not, and the member list it had begins the one it
    has. *)
Theorem serve_keeps_rooms_and_members rooms events rid r :
  rooms !! rid = Some r →
  ∃ r', srv_rooms (serve rooms events) !! rid = Some r'
        ∧ clients r `prefix_of` clients r'.
Proof.
  intros Hr. induction events as [|e events IH] using rev_ind.
  - by exists r.
  - destruct IH as (r1 & Hr1 & Hpre). rewrite serve_snoc.
    destruct (serve_frame_cases (serve rooms events) e) as [->|(_ & -> & _)].
    + by exists r1.
    + destruct (on_message_under_prefix (srv_proto (serve rooms events))
                  _ e.1 e.2 _ _ Hr1) as (r2 & Hr2 & Hpre2).
      exists r2. split; [done|]. by etrans.
Qed.

(** X24. The process exits on an exception only through a join that
    carries the shared token: a run that ends exited holds a join with the
    shared token whose room id is a property name that [Object.prototype]
    has of itself, or is [state] after an update of the room id
    [__proto__] in the same run. *)
Theorem exit_needs_a_token_join rooms events :
  srv_exited (serve rooms events) = true →
  ∃ c data rid, (c, data) ∈ events
    ∧ split data = ["/room"; token; rid]
    ∧ (rid ∈ Object_prototype_names
       ∨ (rid = "state"
          ∧ ∃ c' data' rest, (c', data') ∈ events
              ∧ split data' = "/state" :: "__proto__" :: rest)).
Proof.
  induction events as [|e events IH] using rev_ind; [done|].
  rewrite serve_snoc. intros Hex.
  destruct (serve_frame_cases (serve rooms events) e)
    as [Heq|(_ & _ & _ & _ & Hend)].
  - rewrite Heq in Hex. destruct (IH Hex) as (c & data & rid & Hin & Hs & Hn).
    exists c, data, rid. split_and!; [apply elem_of_app; by left|done|].
    destruct Hn as [?|(-> & c' & data' & rest & Hin' & Hs')]; [by left|].
    right. split; [done|]. exists c', data', rest.
    split; [apply elem_of_app; by left|done].
  - apply Hend in Hex. apply on_message_under_throws in Hex
      as (rid & Hs & Hn).
    exists e.1, e.2, rid. split_and!; [|done|].
    { apply elem_of_app. right. destruct e. by apply list_elem_of_singleton. }
    destruct Hn as [?|(-> & ph & Hph)]; [by left|]. right. split; [done|].
    destruct (serve_invariant rooms events) as (_ & _ & Ha).
    destruct (Ha _ Hph) as (c' & data' & rest & Hin' & Hs').
    exists c', data', rest. split; [apply elem_of_app; by left|done].
Qed.

(** X26. No frame goes to a connection that has not sent a join with the
    shared token, also after an update has assigned
    [Object.prototype.state]: from a registry whose rooms have no members,
    every frame sent goes to a connection that sent such a join. *)
Theorem serve_sends_to_joined_connections rooms events c text :
  (∀ k r0, rooms !! k = Some r0 → clients r0 = []) →
  (c, text) ∈ srv_sent (serve rooms events) →
  ∃ data rid, (c, data) ∈ events ∧ split data = ["/room"; token; rid].
Proof.
  intros Hempty.
  induction events as [|e events IH] using rev_ind; intros Hin.
  - by apply elem_of_nil in Hin.
  - assert (Hold : (∃ data rid, (c, data) ∈ events
                      ∧ split data = ["/room"; token; rid]) →
      ∃ data rid, (c, data) ∈ events ++ [e] ∧ split data = ["/room"; token; rid]).
    { intros (data & rid & Hd & Hs). exists data, rid. split; [|done].
      apply elem_of_app. by left. }
    rewrite serve_snoc in Hin.
    destruct (serve_frame_cases (serve rooms events) e)
      as [Heq|(_ & _ & Hsent & _)].
    { rewrite Heq in Hin. by apply Hold, IH. }
    rewrite Hsent in Hin. apply elem_of_app in Hin as [Hin|Hin];
      [by apply Hold, IH|].
    destruct (serve_invariant rooms events) as (Hr & Hp & _).
    apply on_message_under_sent in Hin
      as [[-> [rid Hs]]|[(rid & r & Hrid & Hc)|(ph & Hph & Hc)]].
    + exists e.2, rid. split; [|done]. apply elem_of_app. right.
      destruct e. by apply list_elem_of_singleton.
    + apply Hold. destruct (Hr _ _ _ Hrid Hc) as [(r0 & Hr0 & Hc0)|(data & ? & ?)].
      * rewrite (Hempty _ _ Hr0) in Hc0. by apply elem_of_nil in Hc0.
      * by exists data, rid.
    + apply Hold. destruct (Hp _ _ Hph Hc) as (data & ? & ?).
      by exists data, "state".
Qed.

End Serve.

(** * The further properties on the concrete deployment *)

#[local] Ltac by_compute :=
  first [ vm_compute; reflexivity
        | vm_compute; exact I
        | let H := fresh in intros H; vm_compute in H; discriminate H ].


Lemma token_is_read_on_joins_only_witness :
  on_message MiniJSON.parse MiniJSON.stringify "abc" Demo.is_open
    Demo.rooms_r1 1 "/state r1 [1]"
  = on_message MiniJSON.parse MiniJSON.stringify "xyz" Demo.is_open
      Demo.rooms_r1 1 "/state r1 [1]".
Proof.
  apply (token_is_read_on_joins_only
           MiniJSON.parse MiniJSON.stringify Demo.is_open "abc" "xyz"
           Demo.rooms_r1 1 "/state r1 [1]").
  by_compute.
Defined.

(** With the shared token [a b] the frame [/room a b r1] is dropped. *)
Example token_with_space_demo :
  check_token "a b" = None
  ∧ on_message MiniJSON.parse MiniJSON.stringify "a b" Demo.is_open
      Demo.rooms_r1 4 "/room a b r1"
    = Result Demo.rooms_r1 [] Normal None.
Proof. split; vm_compute; reflexivity. Qed.

(** A join of [r1] leaves the room named like the token as it is, and an
    update of [r1] leaves the room named like its payload as it is. *)
Lemma other_rooms_are_untouched_witness :
  let rooms : gmap string (room Z Demo.conn) :=
    <["abc" := Room None [9]]> (<["[1]" := Room None [8]]> Demo.rooms_r1) in
  res_rooms (Demo.on_message rooms 4 "/room abc r1") !! "abc" = rooms !! "abc"
  ∧ res_rooms (Demo.on_message rooms 4 "/state r1 [1]") !! "[1]" = rooms !! "[1]".
Proof.
  split.
  - apply (other_rooms_are_untouched
             MiniJSON.parse MiniJSON.stringify Demo.token Demo.is_open
             (<["abc" := Room None [9]]> (<["[1]" := Room None [8]]> Demo.rooms_r1))
             4 "/room abc r1" "abc"); [intros _; by_compute|by_compute].
  - apply (other_rooms_are_untouched
             MiniJSON.parse MiniJSON.stringify Demo.token Demo.is_open
             (<["abc" := Room None [9]]> (<["[1]" := Room None [8]]> Demo.rooms_r1))
             4 "/state r1 [1]" "[1]"); [by_compute|intros _; by_compute].
Defined.

Lemma room_id_with_space_is_unreachable_witness :
  let rooms : gmap string (room Z Demo.conn) :=
    {[ "a b" := Room (Some (JNum 1%Z)) [] ]} in
  res_rooms (Demo.on_message rooms 1 "/state a b 2") !! "a b" = rooms !! "a b".
Proof.
  apply (room_id_with_space_is_unreachable
           MiniJSON.parse MiniJSON.stringify Demo.token Demo.is_open
           {[ "a b" := Room (Some (JNum 1%Z)) [] ]} 1 "/state a b 2" "a b").
  by_compute.
Defined.

Lemma update_fans_out_once_per_listing_witness :
  let rooms : gmap string (room Z Demo.conn) :=
    {[ "r1" := Room None [2; 1; 2] ]} in
  received 2 (res_sent (Demo.on_message rooms 1 "/state r1 [1]"))
  = ["/state [1]"; "/state [1]"].
Proof.
  refine (update_fans_out_once_per_listing
            MiniJSON.parse MiniJSON.stringify Demo.token Demo.is_open
            {[ "r1" := Room None [2; 1; 2] ]} 1 "r1" "[1]"
            (Room None [2; 1; 2]) (JArr [JNum 1%Z]) 2 _ _ _ _ _); by_compute.
Defined.

Lemma states_change_on_updates_only_witness :
  state (Room (Some Demo.value_x1) [1; 2; 4])
  = from_option state None (Demo.rooms_r1_r2 !! "r1").
Proof.
  apply (states_change_on_updates_only
           MiniJSON.parse MiniJSON.stringify Demo.token Demo.is_open
           Demo.rooms_r1_r2 4 "/room abc r1" "r1"
           (Room (Some Demo.value_x1) [1; 2; 4])); by_compute.
Defined.

Lemma members_change_on_joins_only_witness :
  clients <$> res_rooms (Demo.on_message Demo.rooms_r1 7 "/state r1 [1]") !! "r1"
  = clients <$> Demo.rooms_r1 !! "r1".
Proof.
  apply (members_change_on_joins_only
           MiniJSON.parse MiniJSON.stringify Demo.token Demo.is_open
           Demo.rooms_r1 7 "/state r1 [1]" "r1"); by_compute.
Defined.


Lemma update_twice_witness :
  let frame := "/state r1 " +:+ Demo.payload_x1 in
  let once := Demo.on_message Demo.rooms_r1 1 frame in
  Demo.on_message (res_rooms once) 1 frame = once.
Proof.
  apply (update_twice
           MiniJSON.parse MiniJSON.stringify Demo.token Demo.is_open
           Demo.rooms_r1 1 "r1" Demo.payload_x1 (Room None [1; 2; 3])
           Demo.value_x1); by_compute.
Defined.

Lemma join_after_update_witness :
  let updated :=
    res_rooms (Demo.on_message Demo.rooms_r1 1 ("/state r1 " +:+ Demo.payload_x1)) in
  Demo.on_message updated 4 "/room abc r1" =
  Result (<["r1" := Room (Some Demo.value_x1) [1; 2; 3; 4]]> Demo.rooms_r1)
         [(4, "/state " +:+ MiniJSON.stringify Demo.value_x1)] Normal None.
Proof.
  apply (join_after_update
           MiniJSON.parse MiniJSON.stringify Demo.token Demo.is_open
           Demo.rooms_r1 1 4 "r1" Demo.payload_x1 (Room None [1; 2; 3])
           Demo.value_x1); by_compute.
Defined.

Lemma join_twice_doubles_the_fan_out_witness :
  let join := "/room abc r1" in
  let joined :=
    res_rooms (Demo.on_message (res_rooms (Demo.on_message Demo.rooms_r1 5 join)) 5 join) in
  joined !! "r1" = Some (Room None [1; 2; 3; 5; 5])
  ∧ received 5 (res_sent (Demo.on_message joined 1 "/state r1 [1]"))
    = ["/state [1]"; "/state [1]"].
Proof.
  apply (join_twice_doubles_the_fan_out
           MiniJSON.parse MiniJSON.stringify Demo.token Demo.is_open
           Demo.rooms_r1 1 5 "r1" "[1]" (Room None [1; 2; 3])
           (JArr [JNum 1%Z])); try by_compute.
  apply (bool_decide_unpack _). by_compute.
Defined.

Lemma loaded_rooms_have_a_state_and_no_members_witness :
  clients (Room (conn := Demo.conn) (Some Demo.value_x1) []) = []
  ∧ is_Some (state (Room (conn := Demo.conn) (Some Demo.value_x1) [])).
Proof.
  apply (loaded_rooms_have_a_state_and_no_members MiniJSON.parse
           (Some (Demo.saveStateToDisk Demo.rooms_r1_r2)) "r1"
           (Room (Some Demo.value_x1) [])).
  by_compute.
Defined.

Lemma save_then_load_is_identity_witness :
  let rooms : gmap string (room Z Demo.conn) :=
    {[ "r1" := Room (Some Demo.value_x1) [] ]} in
  Demo.load_db (Some (Demo.saveStateToDisk rooms)) = rooms.
Proof.
  apply (save_then_load_is_identity MiniJSON.parse MiniJSON.stringify
           {[ "r1" := Room (Some Demo.value_x1) [] ]}).
  - by_compute.
  - intros rid r Hr. apply lookup_singleton_Some in Hr as [_ <-].
    split; [reflexivity|]. by eexists.
Defined.

Lemma restart_rewrites_the_same_text_witness :
  (Demo.startup (Some (Demo.saveStateToDisk Demo.rooms_r1_r2))).2
  = Demo.saveStateToDisk Demo.rooms_r1_r2.
Proof.
  apply (restart_rewrites_the_same_text MiniJSON.parse MiniJSON.stringify
           Demo.rooms_r1_r2).
  by_compute.
Defined.

Lemma unusable_db_is_overwritten_witness :
  Demo.startup None = (∅, "{}")
  ∧ Demo.startup (Some "{r1:") = (∅, "{}")
  ∧ Demo.startup (Some "null") = (∅, "{}").
Proof.
  split_and!.
  - apply (unusable_db_is_overwritten MiniJSON.parse MiniJSON.stringify None).
    by left.
  - apply (unusable_db_is_overwritten MiniJSON.parse MiniJSON.stringify
             (Some "{r1:")).
    right. exists "{r1:". split; [reflexivity|]. left. by_compute.
  - apply (unusable_db_is_overwritten MiniJSON.parse MiniJSON.stringify
             (Some "null")).
    right. exists "null". split; [reflexivity|]. right.
    exists JNull. split; [by_compute|by left].
Defined.

Lemma snapshot_changes_on_updates_only_witness :
  Demo.saveStateToDisk (res_rooms (Demo.on_message Demo.rooms_r1_r2 4 "/room abc r9"))
  = Demo.saveStateToDisk Demo.rooms_r1_r2.
Proof.
  apply (snapshot_changes_on_updates_only
           MiniJSON.parse MiniJSON.stringify Demo.token Demo.is_open
           Demo.rooms_r1_r2 4 "/room abc r9").
  by_compute.
Defined.

Lemma update_survives_restart_witness :
  let updated :=
    res_rooms (Demo.on_message Demo.rooms_r1 1 ("/state r1 " +:+ Demo.payload_x1)) in
  Demo.load_db (Some (Demo.saveStateToDisk updated)) !! "r1"
  = Some (Room (Some Demo.value_x1) []).
Proof.
  apply (update_survives_restart
           MiniJSON.parse MiniJSON.stringify Demo.token Demo.is_open
           Demo.rooms_r1 1 "r1" Demo.payload_x1 (Room None [1; 2; 3])
           Demo.value_x1); by_compute.
Defined.

Lemma array_db_loads_rooms_named_by_index_witness :
  Demo.load_db (Some "[10, 20]") !! "1" = Some (Room (Some (JNum 20%Z)) []).
Proof.
  apply (array_db_loads_rooms_named_by_index MiniJSON.parse
           "[10, 20]" [JNum 10%Z; JNum 20%Z] 1 (JNum 20%Z)); by_compute.
Defined.

(** Connections 1 and 2 join [r1], connection 1 updates it. *)
Lemma members_have_joined_witness :
  ∃ data, (2, data) ∈ [(1, "/room abc r1"); (2, "/room abc r1")]
          ∧ split data = ["/room"; Demo.token; "r1"].
Proof.
  apply (members_have_joined
           MiniJSON.parse MiniJSON.stringify Demo.token Demo.is_open
           ∅ [(1, "/room abc r1"); (2, "/room abc r1")] "r1"
           (Room None [1; 2]) 2).
  - intros k r0 Hk. by rewrite lookup_empty in Hk.
  - by_compute.
  - vm_compute. apply list_elem_of_further, list_elem_of_here.
Defined.

Lemma frames_go_to_joined_connections_witness :
  ∃ data rid,
    (2, data) ∈ [(1, "/room abc r1"); (2, "/room abc r1"); (1, "/state r1 [1]")]
    ∧ split data = ["/room"; Demo.token; rid].
Proof.
  apply (frames_go_to_joined_connections
           MiniJSON.parse MiniJSON.stringify Demo.token Demo.is_open
           ∅ [(1, "/room abc r1"); (2, "/room abc r1"); (1, "/state r1 [1]")]
           2 "/state [1]").
  - intros k r0 Hk. by rewrite lookup_empty in Hk.
  - vm_compute. apply list_elem_of_further, list_elem_of_here.
Defined.

Lemma run_keeps_rooms_and_members_witness :
  ∃ r', proc_rooms (Demo.run Demo.rooms_r1
                      [(4, "/room abc r1"); (1, "/state r1 [1]")]) !! "r1" = Some r'
        ∧ [1; 2; 3] `prefix_of` clients r'.
Proof.
  apply (run_keeps_rooms_and_members
           MiniJSON.parse MiniJSON.stringify Demo.token Demo.is_open
           Demo.rooms_r1 [(4, "/room abc r1"); (1, "/state r1 [1]")] "r1"
           (Room None [1; 2; 3])).
  by_compute.
Defined.

(** A run: the join of [toString] ends the process, and the update after
    it is not delivered. *)
Example run_demo :
  Demo.run ∅ [(1, "/room abc r1"); (2, "/room abc toString"); (1, "/state r1 [1]")]
  = Process {[ "r1" := Room None [1] ]} [] Exited.
Proof. vm_compute. reflexivity. Qed.

Lemma payload_is_the_rest_of_the_frame_witness :
  let lineSplit := split "/state r1 [1,  2 ]" in
  lineSplit !! 0 = Some "/state"
  ∧ lineSplit !! 1 = Some "r1"
  ∧ 2 < length lineSplit
  ∧ join (drop 2 lineSplit) = "[1,  2 ]".
Proof.
  apply (payload_is_the_rest_of_the_frame "r1" "[1,  2 ]"). reflexivity.
Defined.

(** The update of [__proto__] needs no token; after it a room is still
    created, and the join of [state] then ends the process. *)
Lemma exit_needs_a_token_join_witness :
  ∃ c data rid,
    (c, data) ∈ [(1, "/state __proto__ [1]"); (2, "/room abc r1"); (3, "/room abc state")]
    ∧ split data = ["/room"; Demo.token; rid]
    ∧ (rid ∈ Object_prototype_names
       ∨ (rid = "state"
          ∧ ∃ c' data' rest,
              (c', data') ∈ [(1, "/state __proto__ [1]"); (2, "/room abc r1");
                             (3, "/room abc state")]
              ∧ split data' = "/state" :: "__proto__" :: rest)).
Proof.
  apply (exit_needs_a_token_join
           MiniJSON.parse MiniJSON.stringify Demo.token Demo.is_open
           Demo.is_OPEN Demo.JSON_stringify_live ∅
           [(1, "/state __proto__ [1]"); (2, "/room abc r1"); (3, "/room abc state")]).
  by_compute.
Defined.

Example serve_demo :
  Demo.serve ∅ [(1, "/state __proto__ [1]"); (2, "/room abc r1"); (3, "/room abc state")]
  = Server {[ "r1" := Room None [2] ]} []
           (Some (Phantom (JArr [JNum 1%Z]) [])) true.
Proof. vm_compute. reflexivity. Qed.

Lemma serve_sends_to_joined_connections_witness :
  ∃ data rid,
    (2, data) ∈ [(1, "/state __proto__ " +:+ Demo.payload_room); (2, "/room abc state");
                 (1, "/state state 5")]
    ∧ split data = ["/room"; Demo.token; rid].
Proof.
  apply (serve_sends_to_joined_connections
           MiniJSON.parse MiniJSON.stringify Demo.token Demo.is_open
           Demo.is_OPEN Demo.JSON_stringify_live ∅
           [(1, "/state __proto__ " +:+ Demo.payload_room); (2, "/room abc state");
            (1, "/state state 5")]
           2 "/state 5").
  - intros k r0 Hk. by rewrite lookup_empty in Hk.
  - vm_compute. apply list_elem_of_further, list_elem_of_here.
Defined.

Example serve_inherited_room :
  let s := Demo.serve ∅ [(1, "/state __proto__ " +:+ Demo.payload_room);
                         (2, "/room abc state"); (1, "/state state 5")] in
  srv_rooms s = ∅
  ∧ srv_sent s = [(2, "/state 0"); (2, "/state 5")]
  ∧ srv_exited s = false.
Proof. vm_compute. by repeat split. Qed.

Lemma serve_keeps_rooms_and_members_witness :
  ∃ r', srv_rooms (Demo.serve Demo.rooms_r1
                     [(1, "/state __proto__ [1]"); (4, "/room abc r1")]) !! "r1"
        = Some r'
        ∧ [1; 2; 3] `prefix_of` clients r'.
Proof.
  apply (serve_keeps_rooms_and_members
           MiniJSON.parse MiniJSON.stringify Demo.token Demo.is_open
           Demo.is_OPEN Demo.JSON_stringify_live
           Demo.rooms_r1 [(1, "/state __proto__ [1]"); (4, "/room abc r1")] "r1"
           (Room None [1; 2; 3])).
  by_compute.
Defined.
